(** * Firehose collector: the event buffer, the batch worker and the shutdown drain

    A shallow embedding of [src/firehose/firehose_collector.py].

    - Python integers are [Z]; [len] of a sequence is the [Z] image of its length.
    - An event is the dictionary produced by [EventPayload.dict()]: a finite map
      from field names to values.
    - [collections.deque(maxlen=m)] is a list together with its bound; an append
      on a full deque discards the element at the opposite end.
    - [time.time()] readings are IEEE binary64 numbers, as in Python; they enter
      the functions as arguments.
    - [async with self.lock] makes each buffer method one atomic step, so each
      method is one function on the buffer state.
    - Code that can raise returns a [Result]; a state reached before the raise
      is kept, as in Python. *)

From Stdlib Require Import ZArith Lia String List.
From Stdlib Require Import Floats.PrimFloat.
From stdpp Require Import base list gmap strings relations.

Open Scope Z_scope.

(** ** Configuration *)

Definition BATCH_SIZE : Z := 100.
Definition BATCH_TIMEOUT : float := 1.0%float.
Definition MAX_QUEUE_SIZE : Z := 100000.
(** [WORKER_SLEEP = 0.1]: the binary64 value nearest to one tenth. *)
Definition WORKER_SLEEP : float := 0x1.999999999999ap-4%float.
(** The argument of [asyncio.sleep(1)] in the worker's handler. *)
Definition BACKOFF_SLEEP : float := 1.0%float.

(** ** Values, events, exceptions *)

(** Values stored in an event dictionary.  [PData repr] is a dictionary or
    list of JSON-serialisable values, identified by its [repr]; [PObject] is a
    value [json.dumps] rejects with [TypeError]. *)
Inductive PyVal : Type :=
| PInt (z : Z)
| PStr (s : string)
| PData (repr : string)
| PObject.

Abbreviation Event := (gmap string PyVal).

(** Exceptions of class [Exception]. *)
Inductive Exn : Type :=
| KeyError (key : string)
| TypeError
| AttributeError
| ValueError
| DatabaseError (msg : string)
| OtherError (msg : string).

Inductive Result (A : Type) : Type :=
| Ok (a : A)
| Raise (e : Exn).
Arguments Ok {A} a.
Arguments Raise {A} e.

Definition len {A : Type} (l : list A) : Z := Z.of_nat (length l).

(** ** collections.deque *)

Record Deque : Type := mkDeque {
  items : list Event;
  maxlen : Z
}.

(** [deque(maxlen=m)]: a negative bound is rejected. *)
Definition deque_new (m : Z) : Result Deque :=
  if m <? 0 then Raise ValueError else Ok (mkDeque [] m).

(** [d.append(x)]: the element goes to the right end; when the bound is
    exceeded the leftmost element is discarded. *)
Definition deque_append (d : Deque) (x : Event) : Deque :=
  let grown := items d ++ [x] in
  if len grown >? maxlen d then mkDeque (tail grown) (maxlen d)
  else mkDeque grown (maxlen d).

(** [d.popleft()] on a deque known to be non-empty. *)
Definition deque_popleft (d : Deque) : option (Event * Deque) :=
  match items d with
  | [] => None
  | x :: rest => Some (x, mkDeque rest (maxlen d))
  end.

(** ** EventBuffer *)

Record EventBuffer : Type := mkBuffer {
  queue : Deque;
  total_received : Z;
  total_processed : Z;
  total_dropped : Z
}.

Definition queue_size (b : EventBuffer) : Z := len (items (queue b)).

(** [EventBuffer.__init__(max_size)]. *)
Definition EventBuffer_init (max_size : Z) : Result EventBuffer :=
  match deque_new max_size with
  | Ok d => Ok (mkBuffer d 0 0 0)
  | Raise e => Raise e
  end.

(** [EventBuffer()]: the module's [event_buffer], built with the default bound. *)
Definition default_buffer : EventBuffer := mkBuffer (mkDeque [] MAX_QUEUE_SIZE) 0 0 0.

(** [EventBuffer.add_event]: the guard compares with the module constant
    [MAX_QUEUE_SIZE]. *)
Definition add_event (event : Event) (b : EventBuffer) : EventBuffer * bool :=
  if len (items (queue b)) >=? MAX_QUEUE_SIZE then
    (mkBuffer (queue b) (total_received b) (total_processed b) (total_dropped b + 1),
     false)
  else
    (mkBuffer (deque_append (queue b) event)
              (total_received b + 1) (total_processed b) (total_dropped b),
     true).

(** The loop of [get_batch]: [iters] rounds of
    [if self.queue: batch.append(self.queue.popleft())]. *)
Fixpoint get_batch_loop (iters : nat) (d : Deque) (batch : list Event)
  : Deque * list Event :=
  match iters with
  | O => (d, batch)
  | S k =>
      match deque_popleft d with
      | Some (x, d') => get_batch_loop k d' (batch ++ [x])
      | None => get_batch_loop k d batch
      end
  end.

(** [EventBuffer.get_batch]: [range(n)] is empty for [n <= 0]. *)
Definition get_batch (batch_size : Z) (b : EventBuffer) : EventBuffer * list Event :=
  let iters := Z.to_nat (Z.min batch_size (len (items (queue b)))) in
  let '(d, batch) := get_batch_loop iters (queue b) [] in
  (mkBuffer d (total_received b) (total_processed b) (total_dropped b), batch).

(** [EventBuffer.get_stats]. *)
Record Stats : Type := mkStats {
  st_queue_size : Z;
  st_total_received : Z;
  st_total_processed : Z;
  st_total_dropped : Z
}.

Definition get_stats (b : EventBuffer) : Stats :=
  mkStats (queue_size b) (total_received b) (total_processed b) (total_dropped b).

(** [self.buffer.total_processed += inserted], under the buffer's lock. *)
Definition add_processed (inserted : Z) (b : EventBuffer) : EventBuffer :=
  mkBuffer (queue b) (total_received b) (total_processed b + inserted) (total_dropped b).

(** Admitting a sequence of events one after the other, with the list of
    return values. *)
Fixpoint add_events (es : list Event) (b : EventBuffer) : EventBuffer * list bool :=
  match es with
  | [] => (b, [])
  | e :: rest =>
      let '(b1, r) := add_event e b in
      let '(b2, rs) := add_events rest b1 in
      (b2, r :: rs)
  end.

Definition count_true (l : list bool) : Z := len (filter (fun r => r = true) l).
Definition count_false (l : list bool) : Z := len (filter (fun r => r = false) l).

(** A numbered test event. *)
Definition sample_event (n : Z) : Event :=
  <["user_id" := PInt n]> (<["timestamp" := PStr "2024-01-14T10:30:00Z"]>
  (<["metadata" := PData "{}"]> ∅)).

Definition sample_events (n : nat) : list Event :=
  map (fun i => sample_event (Z.of_nat i)) (seq 1 n).

(** ** Buffer operations as a transition system

    The operations that change an [EventBuffer]: [add_event] by the request
    path, [get_batch] by the worker or the shutdown drain, and the worker's
    [total_processed += inserted] for a batch it extracted before.  The
    bookkeeping field [outstanding] counts the events taken out by [get_batch]
    and not counted in [total_processed]: the batch being written, and the
    batches whose write failed or was not followed by an update. *)

Record Sys : Type := mkSys {
  sys_buffer : EventBuffer;
  outstanding : Z
}.

Inductive sys_step : Sys -> Sys -> Prop :=
| step_add_event (e : Event) (s : Sys) :
    sys_step s (mkSys (fst (add_event e (sys_buffer s))) (outstanding s))
| step_get_batch (n : Z) (s : Sys) :
    sys_step s (mkSys (fst (get_batch n (sys_buffer s)))
                      (outstanding s + len (snd (get_batch n (sys_buffer s)))))
| step_processed (k : Z) (s : Sys) :
    0 < k <= outstanding s ->
    sys_step s (mkSys (add_processed k (sys_buffer s)) (outstanding s - k)).

Definition sys_start (b : EventBuffer) : Sys := mkSys b 0.

(** States reachable from a buffer constructed with [max_size = C]. *)
Definition reachable (C : Z) (s : Sys) : Prop :=
  exists b0, EventBuffer_init C = Ok b0 /\ rtc sys_step (sys_start b0) s.

(** The invariant of a bounded deque. *)
Definition deque_ok (d : Deque) : Prop := 0 <= maxlen d /\ len (items d) <= maxlen d.

(** What holds in every state reachable from a buffer built with bound [C]. *)
Definition sys_inv (C : Z) (s : Sys) : Prop :=
  maxlen (queue (sys_buffer s)) = C /\
  deque_ok (queue (sys_buffer s)) /\
  0 <= outstanding s /\
  (MAX_QUEUE_SIZE <= C ->
   total_received (sys_buffer s)
   = total_processed (sys_buffer s) + queue_size (sys_buffer s) + outstanding s).

(** The default buffer after one event was admitted and one batch taken. *)
Definition one_in_flight : Sys :=
  mkSys (fst (get_batch BATCH_SIZE (fst (add_event (sample_event 1) default_buffer))))
        1.

(** A buffer built with bound 2, and its state after three admissions. *)
Definition small_buffer : EventBuffer := mkBuffer (mkDeque [] 2) 0 0 0.

Definition small_full : Sys :=
  mkSys (fst (add_events (sample_events 3) small_buffer)) 0.

(** ** EventDatabase *)

(** The text [json.dumps] returns for a value. *)
Inductive JsonText : Type :=
| JsonOf (v : PyVal).

Definition Row : Type := PyVal * PyVal * JsonText.

(** The open connection: rows of committed transactions and rows written in
    the current one. *)
Record Connection : Type := mkConnection {
  committed : list Row;
  uncommitted : list Row
}.

Record EventDatabase : Type := mkDatabase {
  db_file : string;
  db : option Connection
}.

(** What the storage engine does with one [executemany]/[commit] pair. *)
Inductive EngineOutcome : Type :=
| Committed
| ExecuteRaises (e : Exn)
| CommitRaises (e : Exn).

Definition result_bind {A B : Type} (r : Result A) (k : A -> Result B) : Result B :=
  match r with
  | Ok a => k a
  | Raise e => Raise e
  end.

#[global] Instance Result_ret : MRet Result := fun _ a => Ok a.
#[global] Instance Result_bind : MBind Result := fun _ _ k r => result_bind r k.

(** [event[key]]. *)
Definition getitem (event : Event) (key : string) : Result PyVal :=
  match event !! key with
  | Some v => Ok v
  | None => Raise (KeyError key)
  end.

Definition json_dumps (v : PyVal) : Result JsonText :=
  match v with
  | PObject => Raise TypeError
  | _ => Ok (JsonOf v)
  end.

(** One tuple of the list comprehension in [insert_batch]. *)
Definition prepare_row (event : Event) : Result Row :=
  u ← getitem event "user_id";
  t ← getitem event "timestamp";
  m ← getitem event "metadata";
  j ← json_dumps m;
  mret (u, t, j).

Fixpoint prepare_rows (events : list Event) : Result (list Row) :=
  match events with
  | [] => mret []
  | e :: rest =>
      r ← prepare_row e;
      rs ← prepare_rows rest;
      mret (r :: rs)
  end.

(** The body of the [try] block of [insert_batch]. *)
Definition insert_batch_try (d : EventDatabase) (events : list Event)
    (o : EngineOutcome) : EventDatabase * Result Z :=
  match prepare_rows events with
  | Raise e => (d, Raise e)
  | Ok values =>
      match db d with
      | None => (d, Raise AttributeError)
      | Some c =>
          match o with
          | ExecuteRaises e => (d, Raise e)
          | CommitRaises e =>
              (mkDatabase (db_file d)
                 (Some (mkConnection (committed c) (uncommitted c ++ values))),
               Raise e)
          | Committed =>
              (mkDatabase (db_file d)
                 (Some (mkConnection (committed c ++ uncommitted c ++ values) [])),
               Ok (len events))
          end
      end
  end.

(** [EventDatabase.insert_batch]. *)
Definition insert_batch (d : EventDatabase) (events : list Event)
    (o : EngineOutcome) : EventDatabase * Result Z :=
  match events with
  | [] => (d, Ok 0)
  | _ :: _ =>
      match insert_batch_try d events o with
      | (d', Ok n) => (d', Ok n)
      | (d', Raise _) => (d', Ok 0)
      end
  end.

(** [EventDatabase.close]. *)
Definition close (d : EventDatabase) : EventDatabase :=
  match db d with
  | Some _ => mkDatabase (db_file d) None
  | None => d
  end.

(** ** BatchWorker and the shutdown part of lifespan *)

(** Calls and outputs of the worker and of the shutdown, in program order. *)
Inductive Effect : Type :=
| EGetBatch (batch_size : Z) (batch : list Event)
| EInsertBatch (batch : list Event) (r : Result Z)
| EPrintProcessed (inserted : Z) (queue_size : Z)
| EPrintFailed (queue_size : Z)
| EPrintWorkerError (e : Exn)
| EPrintRemaining (n : Z)
| ESleep (seconds : float)
| EClose.

Record BatchWorker : Type := mkWorker {
  running : bool;
  last_batch_time : float
}.

(** The objects shared by the worker, the endpoints and lifespan. *)
Record World (D : Type) : Type := mkWorld {
  buffer : EventBuffer;
  worker : BatchWorker;
  database : D;
  trace : list Effect
}.
Arguments mkWorld {D} buffer worker database trace.
Arguments buffer {D} w.
Arguments worker {D} w.
Arguments database {D} w.
Arguments trace {D} w.

(** What happens while the worker sleeps: events admitted by the request
    path, and possibly [batch_worker.stop()]. *)
Record Tick : Type := mkTick {
  tick_now : float;
  tick_arrivals : list Event;
  tick_stop : bool
}.

Section Worker.

(** The database object handed to [BatchWorker]: its state and its
    [insert_batch] and [close] methods. *)
Context {D : Type}.
Variable db_insert_batch : D -> list Event -> D * Result Z.
Variable db_close : D -> D.

Definition emit (effs : list Effect) (w : World D) : World D :=
  mkWorld (buffer w) (worker w) (database w) (trace w ++ effs).

Definition set_buffer (b : EventBuffer) (w : World D) : World D :=
  mkWorld b (worker w) (database w) (trace w).

Definition set_worker (k : BatchWorker) (w : World D) : World D :=
  mkWorld (buffer w) k (database w) (trace w).

Definition set_database (d : D) (w : World D) : World D :=
  mkWorld (buffer w) (worker w) d (trace w).

(** The test of [_process_batch], from the statistics and the clock. *)
Definition should_process (queue_size : Z) (time_since_last_batch : float) : bool :=
  (queue_size >=? BATCH_SIZE)
  || ((queue_size >? 0) && PrimFloat.leb BATCH_TIMEOUT time_since_last_batch).

(** [BatchWorker._process_batch], with [current_time] the clock reading. *)
Definition _process_batch (current_time : float) (w : World D)
  : World D * Result unit :=
  let stats := get_stats (buffer w) in
  let queue_size := st_queue_size stats in
  let time_since_last_batch :=
    PrimFloat.sub current_time (last_batch_time (worker w)) in
  if should_process queue_size time_since_last_batch then
    let '(b1, batch) := get_batch BATCH_SIZE (buffer w) in
    let w1 := emit [EGetBatch BATCH_SIZE batch] (set_buffer b1 w) in
    match batch with
    | [] => (w1, Ok tt)
    | _ :: _ =>
        let '(d1, r) := db_insert_batch (database w1) batch in
        let w2 := emit [EInsertBatch batch r] (set_database d1 w1) in
        match r with
        | Raise e => (w2, Raise e)
        | Ok inserted =>
            let w3 :=
              if inserted >? 0 then
                emit [EPrintProcessed inserted queue_size]
                     (set_buffer (add_processed inserted (buffer w2)) w2)
              else
                emit [EPrintFailed queue_size] w2 in
            (set_worker (mkWorker (running (worker w3)) current_time) w3, Ok tt)
        end
    end
  else (w, Ok tt).

(** The body of the [while] loop of [start]: the [try] and its handler. *)
Definition worker_iteration (current_time : float) (w : World D) : World D :=
  match _process_batch current_time w with
  | (w1, Ok _) => emit [ESleep WORKER_SLEEP] w1
  | (w1, Raise e) => emit [EPrintWorkerError e; ESleep BACKOFF_SLEEP] w1
  end.

(** [BatchWorker.stop]. *)
Definition stop (w : World D) : World D :=
  set_worker (mkWorker false (last_batch_time (worker w))) w.

(** What the rest of the process does during one sleep of the worker. *)
Definition during_sleep (t : Tick) (w : World D) : World D :=
  let w1 := set_buffer (fst (add_events (tick_arrivals t) (buffer w))) w in
  if tick_stop t then stop w1 else w1.

(** The [while self.running] loop, one [Tick] per iteration. *)
Fixpoint start_loop (ticks : list Tick) (w : World D) : World D :=
  match ticks with
  | [] => w
  | t :: rest =>
      if running (worker w)
      then start_loop rest (during_sleep t (worker_iteration (tick_now t) w))
      else w
  end.

(** [BatchWorker.start]. *)
Definition start (ticks : list Tick) (w : World D) : World D :=
  start_loop ticks (set_worker (mkWorker true (last_batch_time (worker w))) w).

(** The number of loop iterations [start_loop] runs. *)
Fixpoint iterations (ticks : list Tick) (w : World D) : nat :=
  match ticks with
  | [] => O
  | t :: rest =>
      if running (worker w)
      then S (iterations rest (during_sleep t (worker_iteration (tick_now t) w)))
      else O
  end.

(** The part of [lifespan] after the [yield], once the worker task has
    returned. *)
Definition shutdown (w : World D) : World D * Result unit :=
  let w0 := stop w in
  let '(b1, remaining_batch) := get_batch MAX_QUEUE_SIZE (buffer w0) in
  let w1 := emit [EGetBatch MAX_QUEUE_SIZE remaining_batch] (set_buffer b1 w0) in
  let '(w2, r) :=
    match remaining_batch with
    | [] => (w1, Ok tt)
    | _ :: _ =>
        let '(d1, r) := db_insert_batch (database w1) remaining_batch in
        let w2 := emit [EPrintRemaining (len remaining_batch);
                        EInsertBatch remaining_batch r] (set_database d1 w1) in
        match r with
        | Raise e => (w2, Raise e)
        | Ok _ => (w2, Ok tt)
        end
    end in
  match r with
  | Raise e => (w2, Raise e)
  | Ok _ => (emit [EClose] (set_database (db_close (database w2)) w2), Ok tt)
  end.

Definition is_insert (e : Effect) : bool :=
  match e with EInsertBatch _ _ => true | _ => false end.

Definition is_get_batch (e : Effect) : bool :=
  match e with EGetBatch _ _ => true | _ => false end.

End Worker.

(** The module's [event_database]: an [EventDatabase] together with what the
    storage engine will do on the coming transactions. *)
Record ScriptedDb : Type := mkScripted {
  edb : EventDatabase;
  script : list EngineOutcome
}.

Definition scripted_insert_batch (s : ScriptedDb) (events : list Event)
  : ScriptedDb * Result Z :=
  match script s with
  | [] => let '(d, r) := insert_batch (edb s) events Committed in (mkScripted d [], r)
  | o :: rest => let '(d, r) := insert_batch (edb s) events o in (mkScripted d rest, r)
  end.

Definition scripted_close (s : ScriptedDb) : ScriptedDb :=
  mkScripted (close (edb s)) (script s).

(** A database object with an injected fault: while [fail_next] is set its
    [insert_batch] raises instead of writing, once. *)
Record FlakyDb : Type := mkFlaky {
  fail_next : bool;
  inner : ScriptedDb
}.

Definition flaky_insert_batch (f : FlakyDb) (events : list Event)
  : FlakyDb * Result Z :=
  if fail_next f then (mkFlaky false (inner f), Raise (DatabaseError "injected failure"))
  else let '(s, r) := scripted_insert_batch (inner f) events in (mkFlaky false s, r).

(** The effects emitted between a world and a later one. *)
Definition new_effects {D : Type} (w w' : World D) : list Effect :=
  drop (length (trace w)) (trace w').

(** The module-level objects at import time, with the database opened. *)
Definition open_database (outcomes : list EngineOutcome) : ScriptedDb :=
  mkScripted (mkDatabase "events.db" (Some (mkConnection [] []))) outcomes.

Definition initial_world (t0 : float) (outcomes : list EngineOutcome) : World ScriptedDb :=
  mkWorld default_buffer (mkWorker false t0) (open_database outcomes) [].

(** [n] sample events admitted into the world's buffer. *)
Definition admit_samples {D : Type} (n : nat) (w : World D) : World D :=
  mkWorld (fst (add_events (sample_events n) (buffer w))) (worker w) (database w) (trace w).

(** An event without the [metadata] field. *)
Definition malformed_event : Event :=
  <["user_id" := PInt 7]> (<["timestamp" := PStr "2024-01-14T10:30:00Z"]> ∅).

(** ** Scenarios *)

(** A running worker whose last batch was at time 0, three events queued,
    and a storage engine that behaves as [outcomes] says. *)
Definition three_queued (outcomes : list EngineOutcome) : World ScriptedDb :=
  admit_samples 3
    (mkWorld default_buffer (mkWorker true 0%float) (open_database outcomes) []).

(** The same with a database object that raises on its first write. *)
Definition flaky_world : World FlakyDb :=
  admit_samples 3
    (mkWorld default_buffer (mkWorker true 0%float) (mkFlaky true (open_database [])) []).

(** Two polls: at time 2, with two admissions during the sleep that follows,
    and at time 3.5. *)
Definition first_tick : Tick := mkTick 2%float [sample_event 4; sample_event 5] false.
Definition second_tick : Tick := mkTick 3.5%float [] false.

(** Shutdown right after start-up, with nothing admitted. *)
Definition idle_before_shutdown : World ScriptedDb :=
  start scripted_insert_batch [] (initial_world 0%float []).

(** 37 events admitted after start-up, no poll of the worker before shutdown. *)
Definition before_shutdown : World ScriptedDb :=
  admit_samples 37 (start scripted_insert_batch [] (initial_world 0%float [Committed])).

(** ** The request path *)

(** A validated [EventPayload]: the fields have passed the model's checks, and
    [metadata] is the parsed JSON object, identified by its [repr]. *)
Record EventPayload : Type := mkPayload {
  user_id : Z;
  timestamp : string;
  metadata : string
}.

(** [event.dict()]. *)
Definition payload_dict (event : EventPayload) : Event :=
  <["user_id" := PInt (user_id event)]>
    (<["timestamp" := PStr (timestamp event)]>
       (<["metadata" := PData (metadata event)]> ∅)).

(** The row [insert_batch] prepares for such an event. *)
Definition payload_row (event : EventPayload) : Row :=
  (PInt (user_id event), PStr (timestamp event), JsonOf (PData (metadata event))).

(** What the client of [POST /event] receives: the 202 body, or the 503 that
    the raised [HTTPException] becomes. *)
Inductive HttpReply : Type :=
| Accepted202
| Unavailable503 (detail : string).

(** The [ingest_event] endpoint. *)
Definition ingest_event {D : Type} (event : EventPayload) (w : World D)
  : World D * HttpReply :=
  let event_dict := payload_dict event in
  let '(b, added) := add_event event_dict (buffer w) in
  let w1 := mkWorld b (worker w) (database w) (trace w) in
  if negb added
  then (w1, Unavailable503 "Queue is full - please retry later")
  else (w1, Accepted202).

(** ** Observations *)

(** The events handed out by the [get_batch] calls of a trace, in order. *)
Fixpoint extracted (effs : list Effect) : list Event :=
  match effs with
  | [] => []
  | EGetBatch _ batch :: rest => batch ++ extracted rest
  | _ :: rest => extracted rest
  end.

(** The rows of committed transactions, as far as the object holds a
    connection. *)
Definition committed_rows (d : EventDatabase) : list Row :=
  match db d with
  | Some c => committed c
  | None => []
  end.

(** Ticks without a [stop] call. *)
Definition no_stop (ticks : list Tick) : Prop :=
  Forall (fun t => tick_stop t = false) ticks.

(** All the events admitted during the sleeps of [ticks]. *)
Definition all_arrivals (ticks : list Tick) : list Event :=
  concat (map tick_arrivals ticks).

(** A default buffer filled to [MAX_QUEUE_SIZE] by admissions of one event. *)
Definition full_buffer : EventBuffer :=
  mkBuffer (mkDeque (replicate (Z.to_nat MAX_QUEUE_SIZE) (sample_event 1)) MAX_QUEUE_SIZE)
           MAX_QUEUE_SIZE 0 0.

(** An event whose metadata [json.dumps] rejects. *)
Definition unserialisable_event : Event :=
  <["metadata" := PObject]> (sample_event 9).

(** A running worker with 120 events queued. *)
Definition busy_world : World ScriptedDb :=
  admit_samples 120
    (mkWorld default_buffer (mkWorker true 0%float) (open_database []) []).

(** A poll at time 2 during whose sleep [stop] is called. *)
Definition stopping_tick : Tick := mkTick 2%float [] true.

(** [close] of the database object with the injected fault. *)
Definition flaky_close (f : FlakyDb) : FlakyDb :=
  mkFlaky (fail_next f) (scripted_close (inner f)).

(** * Properties *)

(** ** Lists and the deque *)

Lemma len_nonneg {A : Type} (l : list A) : 0 <= len l.
Proof. unfold len. lia. Qed.

Lemma len_app {A : Type} (l1 l2 : list A) : len (l1 ++ l2) = len l1 + len l2.
Proof. unfold len. rewrite length_app. lia. Qed.

Lemma len_take_drop {A : Type} (k : nat) (l : list A) :
  len (take k l) + len (drop k l) = len l.
Proof. rewrite <- len_app, take_drop. reflexivity. Qed.

Lemma len_take {A : Type} (k : nat) (l : list A) :
  len (take k l) = Z.min (Z.of_nat k) (len l).
Proof. unfold len. rewrite length_take. lia. Qed.

Lemma len_tail_snoc {A : Type} (l : list A) (x : A) : len (tail (l ++ [x])) = len l.
Proof. destruct l as [|y l]; cbn; [reflexivity|]. unfold len. rewrite length_app. cbn. lia. Qed.

Lemma deque_append_maxlen (d : Deque) (x : Event) : maxlen (deque_append d x) = maxlen d.
Proof. unfold deque_append. destruct (_ >? _); reflexivity. Qed.

Lemma deque_append_ok (d : Deque) (x : Event) : deque_ok d -> deque_ok (deque_append d x).
Proof.
  intros [Hm Hl]. unfold deque_ok, deque_append.
  destruct (Z.gtb_spec (len (items d ++ [x])) (maxlen d)) as [Hgt|Hle]; cbn.
  - rewrite len_tail_snoc. lia.
  - lia.
Qed.

(** An append below the bound keeps every element. *)
Lemma deque_append_room (d : Deque) (x : Event) :
  len (items d) < maxlen d -> items (deque_append d x) = items d ++ [x].
Proof.
  intros Hlt. unfold deque_append.
  destruct (Z.gtb_spec (len (items d ++ [x])) (maxlen d)) as [Hgt|Hle]; cbn.
  - rewrite len_app in Hgt. change (len [x]) with 1 in Hgt. lia.
  - reflexivity.
Qed.

Lemma get_batch_loop_spec (k : nat) :
  forall (d : Deque) (acc : list Event),
    get_batch_loop k d acc
    = (mkDeque (drop k (items d)) (maxlen d), acc ++ take k (items d)).
Proof.
  induction k as [|k IH]; intros d acc; cbn [get_batch_loop].
  - rewrite drop_0, take_0, app_nil_r. destruct d; reflexivity.
  - unfold deque_popleft. destruct (items d) as [|x rest] eqn:Hq.
    + rewrite IH, Hq, drop_nil, take_nil. reflexivity.
    + rewrite IH. cbn. rewrite <- app_assoc. reflexivity.
Qed.

(** [get_batch] splits the queue at [min batch_size (len queue)]. *)
Lemma get_batch_spec (n : Z) (b : EventBuffer) :
  get_batch n b
  = (mkBuffer (mkDeque (drop (Z.to_nat (Z.min n (queue_size b))) (items (queue b)))
                       (maxlen (queue b)))
              (total_received b) (total_processed b) (total_dropped b),
     take (Z.to_nat (Z.min n (queue_size b))) (items (queue b))).
Proof.
  unfold get_batch, queue_size. rewrite get_batch_loop_spec. reflexivity.
Qed.

Lemma get_batch_sizes (n : Z) (b : EventBuffer) :
  queue_size (fst (get_batch n b)) + len (snd (get_batch n b)) = queue_size b.
Proof.
  rewrite get_batch_spec. cbn. unfold queue_size at 1. cbn.
  rewrite Z.add_comm. apply len_take_drop.
Qed.

Lemma get_batch_len (n : Z) (b : EventBuffer) :
  len (snd (get_batch n b)) = Z.max 0 (Z.min n (queue_size b)).
Proof.
  rewrite get_batch_spec. cbn. rewrite len_take.
  pose proof (len_nonneg (items (queue b))). unfold queue_size. lia.
Qed.

Lemma get_batch_ok (n : Z) (b : EventBuffer) :
  deque_ok (queue b) -> deque_ok (queue (fst (get_batch n b))).
Proof.
  intros [Hm Hl]. pose proof (get_batch_sizes n b) as Hs.
  pose proof (len_nonneg (snd (get_batch n b))).
  split.
  - rewrite get_batch_spec. exact Hm.
  - unfold queue_size in Hs.
    replace (maxlen (queue (fst (get_batch n b)))) with (maxlen (queue b))
      by (rewrite get_batch_spec; reflexivity).
    lia.
Qed.

(** The two branches of [add_event]. *)
Lemma add_event_full (e : Event) (b : EventBuffer) :
  MAX_QUEUE_SIZE <= queue_size b ->
  add_event e b
  = (mkBuffer (queue b) (total_received b) (total_processed b) (total_dropped b + 1),
     false).
Proof.
  intros H. unfold add_event, queue_size in *.
  destruct (Z.geb_spec (len (items (queue b))) MAX_QUEUE_SIZE); [reflexivity|lia].
Qed.

Lemma add_event_room (e : Event) (b : EventBuffer) :
  queue_size b < MAX_QUEUE_SIZE ->
  add_event e b
  = (mkBuffer (deque_append (queue b) e)
              (total_received b + 1) (total_processed b) (total_dropped b),
     true).
Proof.
  intros H. unfold add_event, queue_size in *.
  destruct (Z.geb_spec (len (items (queue b))) MAX_QUEUE_SIZE); [lia|reflexivity].
Qed.

Lemma add_event_ok (e : Event) (b : EventBuffer) :
  deque_ok (queue b) -> deque_ok (queue (fst (add_event e b))).
Proof.
  intros H. unfold add_event. destruct (_ >=? _); cbn; [exact H|].
  apply deque_append_ok, H.
Qed.

Lemma add_event_maxlen (e : Event) (b : EventBuffer) :
  maxlen (queue (fst (add_event e b))) = maxlen (queue b).
Proof.
  unfold add_event. destruct (_ >=? _); cbn; [reflexivity|apply deque_append_maxlen].
Qed.

(** With the bound at or above [MAX_QUEUE_SIZE] the deque never discards: an
    accepted event makes the queue one longer. *)
Lemma add_event_balance (e : Event) (b : EventBuffer) :
  MAX_QUEUE_SIZE <= maxlen (queue b) ->
  total_received (fst (add_event e b)) - queue_size (fst (add_event e b))
  = total_received b - queue_size b /\
  total_processed (fst (add_event e b)) = total_processed b.
Proof.
  intros Hm. unfold add_event, queue_size.
  destruct (Z.geb_spec (len (items (queue b))) MAX_QUEUE_SIZE) as [Hge|Hlt]; cbn;
    [lia|].
  rewrite deque_append_room by lia. rewrite len_app. change (len [e]) with 1. lia.
Qed.

Lemma add_events_cons (e : Event) (rest : list Event) (b : EventBuffer) :
  add_events (e :: rest) b
  = (fst (add_events rest (fst (add_event e b))),
     snd (add_event e b) :: snd (add_events rest (fst (add_event e b)))).
Proof.
  cbn [add_events]. destruct (add_event e b) as [b1 r]. cbn [fst snd].
  destruct (add_events rest b1) as [b2 rs]. reflexivity.
Qed.

(** While there is room below both bounds, admitted events are appended in
    the order of the calls. *)
Lemma add_events_appends (es : list Event) :
  forall b : EventBuffer,
    queue_size b + len es <= MAX_QUEUE_SIZE ->
    queue_size b + len es <= maxlen (queue b) ->
    items (queue (fst (add_events es b))) = items (queue b) ++ es.
Proof.
  induction es as [|e rest IH]; intros b Hmax Hbound.
  - cbn. rewrite app_nil_r. reflexivity.
  - rewrite add_events_cons. cbn [fst].
    change (len (e :: rest)) with (Z.of_nat (S (length rest))) in *.
    pose proof (len_nonneg rest) as Hr. unfold len in Hr.
    assert (Hq : queue_size b < MAX_QUEUE_SIZE) by (unfold len in *; lia).
    rewrite (add_event_room e b Hq). cbn [fst].
    assert (Hi : items (deque_append (queue b) e) = items (queue b) ++ [e]).
    { apply deque_append_room. unfold queue_size, len in *. lia. }
    rewrite IH.
    + cbn [queue]. rewrite Hi, <- app_assoc. reflexivity.
    + unfold queue_size in *. cbn [queue]. rewrite Hi, len_app.
      change (len [e]) with 1. unfold len in *. lia.
    + unfold queue_size in *. cbn [queue]. rewrite Hi, len_app, deque_append_maxlen.
      change (len [e]) with 1. unfold len in *. lia.
Qed.

(** ** The reachable states of the buffer *)

Lemma sys_inv_start (C : Z) (b0 : EventBuffer) :
  EventBuffer_init C = Ok b0 -> sys_inv C (sys_start b0).
Proof.
  unfold EventBuffer_init, deque_new. intros H.
  destruct (Z.ltb_spec C 0) as [Hneg|Hpos]; [discriminate|].
  injection H as <-. unfold sys_inv, deque_ok, queue_size, len. cbn.
  repeat split; lia.
Qed.

Lemma sys_inv_step (C : Z) (s s' : Sys) :
  sys_step s s' -> sys_inv C s -> sys_inv C s'.
Proof.
  intros Hstep (Hm & Hok & Ho & Heq).
  destruct Hstep as [e s|n s|k s Hk]; unfold sys_inv; cbn [sys_buffer outstanding].
  - split; [rewrite add_event_maxlen; exact Hm|].
    split; [apply add_event_ok, Hok|].
    split; [exact Ho|].
    intros HC. specialize (Heq HC).
    destruct (add_event_balance e (sys_buffer s)) as [Hbal Hproc]; [lia|]. lia.
  - pose proof (get_batch_sizes n (sys_buffer s)) as Hs.
    pose proof (len_nonneg (snd (get_batch n (sys_buffer s)))) as Hl.
    split; [rewrite get_batch_spec; exact Hm|].
    split; [apply get_batch_ok, Hok|].
    split; [lia|].
    intros HC. specialize (Heq HC).
    replace (total_received (fst (get_batch n (sys_buffer s))))
      with (total_received (sys_buffer s)) by (rewrite get_batch_spec; reflexivity).
    replace (total_processed (fst (get_batch n (sys_buffer s))))
      with (total_processed (sys_buffer s)) by (rewrite get_batch_spec; reflexivity).
    lia.
  - split; [exact Hm|]. split; [exact Hok|]. split; [lia|].
    intros HC. specialize (Heq HC). unfold add_processed, queue_size in *. cbn. lia.
Qed.

Lemma reachable_inv (C : Z) (s : Sys) : reachable C s -> sys_inv C s.
Proof.
  intros (b0 & Hinit & Hrun).
  revert s Hrun. apply rtc_ind_r.
  - apply sys_inv_start, Hinit.
  - intros y z _ Hstep IH. exact (sys_inv_step C y z Hstep IH).
Qed.

Lemma one_in_flight_reachable : reachable MAX_QUEUE_SIZE one_in_flight.
Proof.
  exists default_buffer. split; [reflexivity|].
  eapply rtc_l; [apply (step_add_event (sample_event 1))|].
  eapply rtc_l; [apply (step_get_batch BATCH_SIZE)|].
  apply rtc_refl.
Qed.

Lemma small_full_reachable : reachable 2 small_full.
Proof.
  exists small_buffer. split; [reflexivity|].
  eapply rtc_l; [apply (step_add_event (sample_event 1))|].
  eapply rtc_l; [apply (step_add_event (sample_event 2))|].
  eapply rtc_l; [apply (step_add_event (sample_event 3))|].
  apply rtc_refl.
Qed.

(** ** Claims about the buffer *)

(** C10. Every call of [add_event] leaves [total_processed] unchanged and adds
    exactly 1 to exactly one of [total_received] and [total_dropped]:
    [total_received] grows if and only if the call returns [True],
    [total_dropped] grows if and only if it returns [False]. *)
Theorem add_event_counters (e : Event) (b : EventBuffer) :
  total_processed (fst (add_event e b)) = total_processed b /\
  (snd (add_event e b) = true /\
   total_received (fst (add_event e b)) = total_received b + 1 /\
   total_dropped (fst (add_event e b)) = total_dropped b
   \/
   snd (add_event e b) = false /\
   total_received (fst (add_event e b)) = total_received b /\
   total_dropped (fst (add_event e b)) = total_dropped b + 1) /\
  (total_received (fst (add_event e b)) = total_received b + 1
   <-> snd (add_event e b) = true) /\
  (total_dropped (fst (add_event e b)) = total_dropped b + 1
   <-> snd (add_event e b) = false).
Proof.
  unfold add_event. destruct (_ >=? _); cbn.
  - split; [reflexivity|]. split; [right; repeat split; reflexivity|].
    split; split; intros H; try reflexivity; try discriminate; lia.
  - split; [reflexivity|]. split; [left; repeat split; reflexivity|].
    split; split; intros H; try reflexivity; try discriminate; lia.
Qed.

(** C2, evaluated on the code.  A buffer built with [max_size = 10] accepts
    all of 15 admissions: every call returns [True], [total_dropped] stays 0,
    [total_received] is 15, and the queue holds the last 10 events because the
    deque discarded the 5 oldest. *)
Theorem capacity_ten_admits_fifteen :
  EventBuffer_init 10 = Ok (mkBuffer (mkDeque [] 10) 0 0 0) /\
  count_true (snd (add_events (sample_events 15) (mkBuffer (mkDeque [] 10) 0 0 0))) = 15 /\
  count_false (snd (add_events (sample_events 15) (mkBuffer (mkDeque [] 10) 0 0 0))) = 0 /\
  total_dropped (fst (add_events (sample_events 15) (mkBuffer (mkDeque [] 10) 0 0 0))) = 0 /\
  total_received (fst (add_events (sample_events 15) (mkBuffer (mkDeque [] 10) 0 0 0))) = 15 /\
  queue_size (fst (add_events (sample_events 15) (mkBuffer (mkDeque [] 10) 0 0 0))) = 10 /\
  items (queue (fst (add_events (sample_events 15) (mkBuffer (mkDeque [] 10) 0 0 0))))
  = drop 5 (sample_events 15).
Proof. repeat split; vm_compute; reflexivity. Qed.

(** C6. [get_batch] takes the first [min batch_size (len queue)] events off
    the head of the queue, in queue order, and leaves the rest and the
    counters as they were; on an empty queue it returns the empty list; and
    the queue order is the order of admission: after admitting [es] into a
    buffer with room for them, the queue is the old queue followed by [es]. *)
Theorem get_batch_fifo (b : EventBuffer) (es : list Event) (n : Z) :
  let b1 := fst (add_events es b) in
  let k := Z.to_nat (Z.min n (queue_size b1)) in
  get_batch n b1
  = (mkBuffer (mkDeque (drop k (items (queue b1))) (maxlen (queue b1)))
              (total_received b1) (total_processed b1) (total_dropped b1),
     take k (items (queue b1))) /\
  len (snd (get_batch n b1)) = Z.max 0 (Z.min n (queue_size b1)) /\
  (items (queue b1) = [] -> snd (get_batch n b1) = []) /\
  (queue_size b + len es <= MAX_QUEUE_SIZE ->
   queue_size b + len es <= maxlen (queue b) ->
   items (queue b1) = items (queue b) ++ es).
Proof.
  intros b1 k. split; [apply get_batch_spec|]. split; [apply get_batch_len|]. split.
  - intros Hempty. rewrite get_batch_spec. cbn. rewrite Hempty. apply take_nil.
  - apply add_events_appends.
Qed.

Lemma get_batch_fifo_witness :
  snd (get_batch 2 (fst (add_events (sample_events 3) default_buffer)))
  = [sample_event 1; sample_event 2] /\
  items (queue (fst (get_batch 2 (fst (add_events (sample_events 3) default_buffer)))))
  = [sample_event 3] /\
  snd (get_batch 2 (fst (add_events [] default_buffer))) = [].
Proof.
  pose proof (get_batch_fifo default_buffer (sample_events 3) 2) as (Hspec & _ & _ & Horder).
  pose proof (get_batch_fifo default_buffer [] 2) as (_ & _ & Hempty & _).
  split; [|split].
  - rewrite Hspec, Horder; [reflexivity | vm_compute; discriminate | vm_compute; discriminate].
  - rewrite Hspec, Horder; [reflexivity | vm_compute; discriminate | vm_compute; discriminate].
  - apply Hempty. reflexivity.
Defined.

(** C5. In every state reachable from a buffer built with [max_size = C],
    by any sequence of [add_event], [get_batch] and processed-count updates,
    the queue holds at most [C] events. *)
Theorem queue_size_bounded (C : Z) (s : Sys) :
  reachable C s -> queue_size (sys_buffer s) <= C.
Proof.
  intros Hr. destruct (reachable_inv C s Hr) as (Hm & [_ Hl] & _).
  unfold queue_size. lia.
Qed.

Lemma queue_size_bounded_witness :
  reachable 2 small_full /\ queue_size (sys_buffer small_full) <= 2.
Proof.
  assert (Hr : reachable 2 small_full).
  { exists small_buffer. split; [reflexivity|].
    eapply rtc_l; [apply (step_add_event (sample_event 1))|].
    eapply rtc_l; [apply (step_add_event (sample_event 2))|].
    eapply rtc_l; [apply (step_add_event (sample_event 3))|].
    apply rtc_refl. }
  split; [exact Hr|]. exact (queue_size_bounded 2 small_full Hr).
Defined.

(** C1, as stated, fails: after one admission and one [get_batch] on the
    default buffer, [total_received] is 1 while [total_processed],
    [total_dropped] and the queue size are all 0. *)
Lemma counter_equation_fails :
  reachable MAX_QUEUE_SIZE one_in_flight /\
  total_received (sys_buffer one_in_flight)
  <> total_processed (sys_buffer one_in_flight)
     + total_dropped (sys_buffer one_in_flight)
     + queue_size (sys_buffer one_in_flight).
Proof.
  split; [exact one_in_flight_reachable|]. vm_compute. discriminate.
Qed.

(** C1, amended.  In every state reachable from a buffer built with a bound
    of at least [MAX_QUEUE_SIZE] (the default), [total_received] equals
    [total_processed] plus the queue size plus the number of events that
    [get_batch] took out and that were not counted as processed, which is
    never negative.  [total_dropped] is not part of the balance. *)
Theorem counters_balance (C : Z) (s : Sys) :
  MAX_QUEUE_SIZE <= C ->
  reachable C s ->
  total_received (sys_buffer s)
  = total_processed (sys_buffer s) + queue_size (sys_buffer s) + outstanding s /\
  0 <= outstanding s.
Proof.
  intros HC Hr. destruct (reachable_inv C s Hr) as (_ & _ & Ho & Heq).
  split; [exact (Heq HC)|exact Ho].
Qed.

Lemma counters_balance_witness :
  reachable MAX_QUEUE_SIZE one_in_flight /\
  total_received (sys_buffer one_in_flight)
  = total_processed (sys_buffer one_in_flight) + queue_size (sys_buffer one_in_flight)
    + 1.
Proof.
  assert (Hr : reachable MAX_QUEUE_SIZE one_in_flight).
  { exists default_buffer. split; [reflexivity|].
    eapply rtc_l; [apply (step_add_event (sample_event 1))|].
    eapply rtc_l; [apply (step_get_batch BATCH_SIZE)|].
    apply rtc_refl. }
  split; [exact Hr|].
  exact (proj1 (counters_balance MAX_QUEUE_SIZE one_in_flight ltac:(lia) Hr)).
Defined.

(** The queue-full branch breaks the spec's equation as well: a rejected
    event raises [total_dropped] and nothing else. *)
Lemma rejected_event_breaks_equation (e : Event) (b : EventBuffer) :
  MAX_QUEUE_SIZE <= queue_size b ->
  total_received b = total_processed b + total_dropped b + queue_size b ->
  total_received (fst (add_event e b))
  <> total_processed (fst (add_event e b)) + total_dropped (fst (add_event e b))
     + queue_size (fst (add_event e b)).
Proof.
  intros Hfull Heq. rewrite (add_event_full e b Hfull). unfold queue_size in *. cbn. lia.
Qed.

(** ** EventDatabase.insert_batch *)

Lemma insert_batch_try_ok (d : EventDatabase) (events : list Event) (o : EngineOutcome)
    (rows : list Row) (c : Connection) :
  prepare_rows events = Ok rows -> db d = Some c -> o = Committed ->
  insert_batch_try d events o
  = (mkDatabase (db_file d)
       (Some (mkConnection (committed c ++ uncommitted c ++ rows) [])),
     Ok (len events)).
Proof. intros Hp Hd ->. unfold insert_batch_try. rewrite Hp, Hd. reflexivity. Qed.

Lemma insert_batch_try_fails (d : EventDatabase) (events : list Event) (o : EngineOutcome) :
  (exists e, prepare_rows events = Raise e) \/ db d = None \/ o <> Committed ->
  exists d' e, insert_batch_try d events o = (d', Raise e).
Proof.
  unfold insert_batch_try. intros [[e He]|[Hd|Ho]].
  - rewrite He. eauto.
  - rewrite Hd. destruct (prepare_rows events); eauto.
  - destruct (prepare_rows events); [|eauto].
    destruct (db d); [|eauto]. destruct o; [congruence|eauto|eauto].
Qed.

Lemma insert_batch_try_result (d : EventDatabase) (events : list Event) (o : EngineOutcome)
    (d' : EventDatabase) (n : Z) :
  insert_batch_try d events o = (d', Ok n) -> n = len events.
Proof.
  unfold insert_batch_try. destruct (prepare_rows events); [|discriminate].
  destruct (db d); [|discriminate]. destruct o; try discriminate.
  intros H. injection H as _ <-. reflexivity.
Qed.

(** C9. [insert_batch] returns to its caller on every input and never raises:
    the result is [len events] when the rows can be prepared, the connection
    is open and the engine commits, and 0 when the list is empty or when
    anything in the write raises; no other value occurs. *)
Theorem insert_batch_all_or_nothing (d : EventDatabase) (events : list Event)
    (o : EngineOutcome) :
  (exists n, snd (insert_batch d events o) = Ok n /\ (n = 0 \/ n = len events)) /\
  (events = [] -> insert_batch d events o = (d, Ok 0)) /\
  (forall rows c,
      events <> [] -> prepare_rows events = Ok rows -> db d = Some c -> o = Committed ->
      insert_batch d events o
      = (mkDatabase (db_file d)
           (Some (mkConnection (committed c ++ uncommitted c ++ rows) [])),
         Ok (len events))) /\
  ((exists e, prepare_rows events = Raise e) \/ db d = None \/ o <> Committed ->
   snd (insert_batch d events o) = Ok 0).
Proof.
  split; [|split; [|split]].
  - unfold insert_batch. destruct events as [|ev rest]; [exists 0; cbn; auto|].
    destruct (insert_batch_try d (ev :: rest) o) as [d' [n|e]] eqn:Htry; cbn.
    + exists n. split; [reflexivity|]. right. eapply insert_batch_try_result, Htry.
    + exists 0. auto.
  - intros ->. reflexivity.
  - intros rows c Hne Hp Hd Ho. unfold insert_batch.
    destruct events as [|ev rest]; [congruence|].
    rewrite (insert_batch_try_ok d (ev :: rest) o rows c Hp Hd Ho). reflexivity.
  - intros Hfail. unfold insert_batch. destruct events as [|ev rest]; [reflexivity|].
    destruct (insert_batch_try_fails d (ev :: rest) o Hfail) as (d' & e & ->).
    reflexivity.
Qed.

Lemma insert_batch_all_or_nothing_witness :
  snd (insert_batch (edb (open_database [])) (sample_events 2) Committed) = Ok 2 /\
  snd (insert_batch (edb (open_database [])) [malformed_event] Committed) = Ok 0 /\
  snd (insert_batch (edb (open_database [])) (sample_events 2)
         (CommitRaises (DatabaseError "disk I/O error"))) = Ok 0 /\
  snd (insert_batch (edb (open_database [])) [] Committed) = Ok 0.
Proof.
  split; [|split; [|split]].
  - pose proof (insert_batch_all_or_nothing (edb (open_database [])) (sample_events 2)
                  Committed) as (_ & _ & Hok & _).
    erewrite Hok; [reflexivity | discriminate | reflexivity | reflexivity | reflexivity].
  - apply (insert_batch_all_or_nothing (edb (open_database [])) [malformed_event] Committed).
    left. exists (KeyError "metadata"). reflexivity.
  - apply (insert_batch_all_or_nothing (edb (open_database [])) (sample_events 2)
             (CommitRaises (DatabaseError "disk I/O error"))).
    right. right. discriminate.
  - pose proof (insert_batch_all_or_nothing (edb (open_database [])) [] Committed)
      as (_ & Hnil & _).
    rewrite Hnil; reflexivity.
Defined.

(** ** The worker *)

Lemma should_process_spec (qs : Z) (since : float) :
  should_process qs since = true
  <-> BATCH_SIZE <= qs \/ (0 < qs /\ PrimFloat.leb BATCH_TIMEOUT since = true).
Proof.
  unfold should_process. rewrite orb_true_iff, andb_true_iff.
  destruct (Z.geb_spec qs BATCH_SIZE), (Z.gtb_spec qs 0); intuition (try discriminate; try lia).
Qed.

Lemma should_process_nonempty (qs : Z) (since : float) :
  should_process qs since = true -> 0 < qs.
Proof. rewrite should_process_spec. unfold BATCH_SIZE. lia. Qed.

Lemma get_batch_nonempty (b : EventBuffer) :
  0 < queue_size b -> snd (get_batch BATCH_SIZE b) <> [].
Proof.
  intros Hq Hnil. pose proof (get_batch_len BATCH_SIZE b) as Hl.
  rewrite Hnil in Hl. unfold BATCH_SIZE in Hl. change (len (@nil Event)) with 0 in Hl. lia.
Qed.

Section WorkerProperties.

Context {D : Type}.
Variable db_insert_batch : D -> list Event -> D * Result Z.
Variable db_close : D -> D.

Local Abbreviation process := (_process_batch db_insert_batch).
Local Abbreviation iteration := (worker_iteration db_insert_batch).
Local Abbreviation loop := (start_loop db_insert_batch).

(** Below the trigger [_process_batch] does nothing. *)
Lemma process_batch_idle (now : float) (w : World D) :
  should_process (queue_size (buffer w))
                 (PrimFloat.sub now (last_batch_time (worker w))) = false ->
  process now w = (w, Ok tt).
Proof. intros H. unfold _process_batch. cbn. rewrite H. reflexivity. Qed.

(** A triggered flush whose write returns [inserted]. *)
Lemma process_batch_written (now : float) (w : World D) (d1 : D) (inserted : Z) :
  should_process (queue_size (buffer w))
                 (PrimFloat.sub now (last_batch_time (worker w))) = true ->
  db_insert_batch (database w) (snd (get_batch BATCH_SIZE (buffer w)))
  = (d1, Ok inserted) ->
  process now w
  = (mkWorld
       (if inserted >? 0
        then add_processed inserted (fst (get_batch BATCH_SIZE (buffer w)))
        else fst (get_batch BATCH_SIZE (buffer w)))
       (mkWorker (running (worker w)) now)
       d1
       (trace w
        ++ [EGetBatch BATCH_SIZE (snd (get_batch BATCH_SIZE (buffer w)));
            EInsertBatch (snd (get_batch BATCH_SIZE (buffer w))) (Ok inserted);
            if inserted >? 0
            then EPrintProcessed inserted (queue_size (buffer w))
            else EPrintFailed (queue_size (buffer w))]),
     Ok tt).
Proof.
  intros Hsp Hdb. pose proof (should_process_nonempty _ _ Hsp) as Hq.
  pose proof (get_batch_nonempty (buffer w) Hq) as Hne.
  unfold _process_batch. cbn [get_stats st_queue_size]. rewrite Hsp.
  destruct (get_batch BATCH_SIZE (buffer w)) as [b1 batch] eqn:Hg. cbn [fst snd] in *.
  destruct batch as [|x batch]; [congruence|].
  unfold emit, set_buffer, set_database, set_worker.
  cbn [buffer worker database trace]. rewrite Hdb.
  destruct (inserted >? 0); cbn [buffer worker database trace running];
    rewrite <- !app_assoc; reflexivity.
Qed.

(** A triggered flush whose write raises. *)
Lemma process_batch_raised (now : float) (w : World D) (d1 : D) (e : Exn) :
  should_process (queue_size (buffer w))
                 (PrimFloat.sub now (last_batch_time (worker w))) = true ->
  db_insert_batch (database w) (snd (get_batch BATCH_SIZE (buffer w)))
  = (d1, Raise e) ->
  process now w
  = (mkWorld (fst (get_batch BATCH_SIZE (buffer w))) (worker w) d1
       (trace w
        ++ [EGetBatch BATCH_SIZE (snd (get_batch BATCH_SIZE (buffer w)));
            EInsertBatch (snd (get_batch BATCH_SIZE (buffer w))) (Raise e)]),
     Raise e).
Proof.
  intros Hsp Hdb. pose proof (should_process_nonempty _ _ Hsp) as Hq.
  pose proof (get_batch_nonempty (buffer w) Hq) as Hne.
  unfold _process_batch. cbn [get_stats st_queue_size]. rewrite Hsp.
  destruct (get_batch BATCH_SIZE (buffer w)) as [b1 batch] eqn:Hg. cbn [fst snd] in *.
  destruct batch as [|x batch]; [congruence|].
  unfold emit, set_buffer, set_database, set_worker.
  cbn [buffer worker database trace]. rewrite Hdb.
  cbn [buffer worker database trace]. rewrite <- !app_assoc. reflexivity.
Qed.

(** The effects of one [_process_batch] call start with the [get_batch]
    call when the trigger holds, and are empty otherwise. *)
Lemma process_batch_effects (now : float) (w : World D) :
  exists tl,
    trace (fst (process now w))
    = trace w
      ++ (if should_process (queue_size (buffer w))
               (PrimFloat.sub now (last_batch_time (worker w)))
          then EGetBatch BATCH_SIZE (snd (get_batch BATCH_SIZE (buffer w))) :: tl
          else [])
    /\ existsb is_get_batch tl = false.
Proof.
  destruct (should_process _ _) eqn:Hsp.
  - destruct (db_insert_batch (database w) (snd (get_batch BATCH_SIZE (buffer w))))
      as [d1 [inserted|e]] eqn:Hdb.
    + rewrite (process_batch_written now w d1 inserted Hsp Hdb). cbn [fst trace].
      eexists. split; [reflexivity|]. destruct (inserted >? 0); reflexivity.
    + rewrite (process_batch_raised now w d1 e Hsp Hdb). cbn [fst trace].
      eexists. split; [reflexivity|]. reflexivity.
  - rewrite (process_batch_idle now w Hsp). exists []. cbn [fst].
    rewrite app_nil_r. split; reflexivity.
Qed.

Lemma process_batch_running (now : float) (w : World D) :
  running (worker (fst (process now w))) = running (worker w).
Proof.
  destruct (should_process (queue_size (buffer w))
              (PrimFloat.sub now (last_batch_time (worker w)))) eqn:Hsp.
  - destruct (db_insert_batch (database w) (snd (get_batch BATCH_SIZE (buffer w))))
      as [d1 [inserted|e]] eqn:Hdb.
    + rewrite (process_batch_written now w d1 inserted Hsp Hdb). reflexivity.
    + rewrite (process_batch_raised now w d1 e Hsp Hdb). reflexivity.
  - rewrite (process_batch_idle now w Hsp). reflexivity.
Qed.

Lemma worker_iteration_running (now : float) (w : World D) :
  running (worker (iteration now w)) = running (worker w).
Proof.
  unfold worker_iteration. pose proof (process_batch_running now w) as H.
  destruct (process now w) as [w1 [u|e]]; cbn in *; exact H.
Qed.

Lemma during_sleep_running (t : Tick) (w : World D) :
  tick_stop t = false -> running (worker (during_sleep t w)) = running (worker w).
Proof. intros H. unfold during_sleep. rewrite H. reflexivity. Qed.

(** Without a [stop] the loop runs one iteration per tick, whatever the
    iterations raise, and is still running afterwards. *)
Lemma loop_keeps_polling (ticks : list Tick) :
  forall w : World D,
    running (worker w) = true ->
    Forall (fun t => tick_stop t = false) ticks ->
    iterations db_insert_batch ticks w = length ticks /\
    running (worker (loop ticks w)) = true.
Proof.
  induction ticks as [|t rest IH]; intros w Hrun Hall.
  - split; [reflexivity|exact Hrun].
  - apply Forall_cons in Hall as [Ht Hrest].
    cbn [iterations start_loop]. rewrite Hrun.
    destruct (IH (during_sleep t (iteration (tick_now t) w))) as [Hn Hr].
    + rewrite during_sleep_running, worker_iteration_running by exact Ht. exact Hrun.
    + exact Hrest.
    + split; [cbn; rewrite Hn; reflexivity|exact Hr].
Qed.

Lemma no_get_batch_in (n : Z) (batch : list Event) (tl : list Effect) :
  existsb is_get_batch tl = false -> ~ In (EGetBatch n batch) tl.
Proof.
  intros Hnone Hin.
  assert (existsb is_get_batch tl = true) as Hsome
    by (apply existsb_exists; exists (EGetBatch n batch); split; [exact Hin|reflexivity]).
  congruence.
Qed.

Lemma process_batch_queue (now : float) (w : World D) :
  should_process (queue_size (buffer w))
                 (PrimFloat.sub now (last_batch_time (worker w))) = true ->
  queue (buffer (fst (process now w))) = queue (fst (get_batch BATCH_SIZE (buffer w))).
Proof.
  intros Hsp.
  destruct (db_insert_batch (database w) (snd (get_batch BATCH_SIZE (buffer w))))
    as [d1 [inserted|e]] eqn:Hdb.
  - rewrite (process_batch_written now w d1 inserted Hsp Hdb). cbn [fst buffer].
    destruct (inserted >? 0); reflexivity.
  - rewrite (process_batch_raised now w d1 e Hsp Hdb). reflexivity.
Qed.

(** C4. One poll of the running worker calls [get_batch] if and only if the
    queue holds at least [BATCH_SIZE] events, or holds at least one event and
    the time since the last batch is at least [BATCH_TIMEOUT]; the call asks
    for [BATCH_SIZE] events, so the batch is the first
    [min BATCH_SIZE queue_size] events and the others stay queued. *)
Theorem flush_trigger (now : float) (w : World D) :
  let qs := queue_size (buffer w) in
  let since := PrimFloat.sub now (last_batch_time (worker w)) in
  let w' := fst (process now w) in
  (existsb is_get_batch (new_effects w w') = true
   <-> BATCH_SIZE <= qs \/ (0 < qs /\ PrimFloat.leb BATCH_TIMEOUT since = true)) /\
  (forall n batch,
      In (EGetBatch n batch) (new_effects w w') ->
      n = BATCH_SIZE /\
      batch = snd (get_batch BATCH_SIZE (buffer w)) /\
      len batch = Z.min BATCH_SIZE qs /\
      queue_size (buffer w') = qs - len batch).
Proof.
  intros qs since w'. subst qs since w'. unfold new_effects.
  destruct (process_batch_effects now w) as (tl & Htr & Hnone). rewrite Htr.
  rewrite drop_app_length. rewrite <- should_process_spec.
  destruct (should_process _ _) eqn:Hsp.
  - split; [split; reflexivity|].
    intros n batch [Heq|Hin]; [|exfalso; exact (no_get_batch_in n batch tl Hnone Hin)].
    injection Heq as <- <-.
    pose proof (should_process_nonempty _ _ Hsp) as Hq.
    pose proof (get_batch_len BATCH_SIZE (buffer w)) as Hl.
    pose proof (get_batch_sizes BATCH_SIZE (buffer w)) as Hs.
    split; [reflexivity|]. split; [reflexivity|]. split; [unfold BATCH_SIZE in *; lia|].
    unfold queue_size at 1. rewrite (process_batch_queue now w Hsp).
    unfold queue_size in *. lia.
  - split; [split; discriminate|]. intros n batch [].
Qed.

(** C7. When the write of a triggered flush returns 0, [total_processed]
    keeps its value, the buffer is exactly what [get_batch] left (the batch
    is not put back), and [last_batch_time] becomes the current poll time;
    [last_batch_time] is set the same way when the write returns a positive
    count, which is then added to [total_processed]. *)
Theorem failed_write_accounting (now : float) (w : World D) (d1 : D) (inserted : Z) :
  should_process (queue_size (buffer w))
                 (PrimFloat.sub now (last_batch_time (worker w))) = true ->
  db_insert_batch (database w) (snd (get_batch BATCH_SIZE (buffer w)))
  = (d1, Ok inserted) ->
  last_batch_time (worker (fst (process now w))) = now /\
  snd (process now w) = Ok tt /\
  (inserted <= 0 ->
   buffer (fst (process now w)) = fst (get_batch BATCH_SIZE (buffer w)) /\
   total_processed (buffer (fst (process now w))) = total_processed (buffer w) /\
   items (queue (buffer w))
   = snd (get_batch BATCH_SIZE (buffer w)) ++ items (queue (buffer (fst (process now w))))) /\
  (0 < inserted ->
   total_processed (buffer (fst (process now w))) = total_processed (buffer w) + inserted).
Proof.
  intros Hsp Hdb. rewrite (process_batch_written now w d1 inserted Hsp Hdb).
  cbn [fst snd worker buffer last_batch_time].
  split; [reflexivity|]. split; [reflexivity|]. split.
  - intros Hle. destruct (Z.gtb_spec inserted 0) as [Hgt|_]; [lia|].
    split; [reflexivity|]. rewrite get_batch_spec. cbn.
    split; [reflexivity|]. symmetry. apply take_drop.
  - intros Hpos. destruct (Z.gtb_spec inserted 0) as [_|Hle]; [|lia].
    rewrite get_batch_spec. reflexivity.
Qed.

(** C8. In a running worker an iteration whose body raises is handled inside
    the loop: the error is printed, the worker sleeps for the back-off time,
    [running] stays set and the loop goes on with the next iteration; unless
    [stop] is called the loop runs every later iteration too. *)
Theorem worker_survives_exceptions (t : Tick) (rest : list Tick) (w : World D) :
  running (worker w) = true ->
  (forall w1 e,
      process (tick_now t) w = (w1, Raise e) ->
      iteration (tick_now t) w = emit [EPrintWorkerError e; ESleep BACKOFF_SLEEP] w1) /\
  running (worker (iteration (tick_now t) w)) = true /\
  loop (t :: rest) w = loop rest (during_sleep t (iteration (tick_now t) w)) /\
  (Forall (fun t' => tick_stop t' = false) (t :: rest) ->
   iterations db_insert_batch (t :: rest) w = S (length rest) /\
   running (worker (loop (t :: rest) w)) = true).
Proof.
  intros Hrun. split; [|split; [|split]].
  - intros w1 e Hraise. unfold worker_iteration. rewrite Hraise. reflexivity.
  - rewrite worker_iteration_running. exact Hrun.
  - cbn [start_loop]. rewrite Hrun. reflexivity.
  - intros Hall. exact (loop_keeps_polling (t :: rest) w Hrun Hall).
Qed.

(** The shutdown path never touches [total_processed]. *)
Lemma shutdown_total_processed (w : World D) :
  total_processed (buffer (fst (shutdown db_insert_batch db_close w)))
  = total_processed (buffer w).
Proof.
  unfold shutdown. rewrite get_batch_spec.
  destruct (take _ _) as [|x batch]; [reflexivity|].
  unfold emit, set_buffer, set_database, stop, set_worker. cbn [buffer worker database trace].
  destruct (db_insert_batch _ _) as [d1 [n|e]]; reflexivity.
Qed.

End WorkerProperties.

(** ** Scenarios on the module's objects *)

Lemma flush_trigger_witness :
  existsb is_get_batch
    (new_effects (three_queued [])
       (fst (_process_batch scripted_insert_batch 1.5%float (three_queued [])))) = true /\
  (forall n batch,
      In (EGetBatch n batch)
         (new_effects (three_queued [])
            (fst (_process_batch scripted_insert_batch 1.5%float (three_queued [])))) ->
      len batch = 3) /\
  existsb is_get_batch
    (new_effects (three_queued [])
       (fst (_process_batch scripted_insert_batch 0.5%float (three_queued [])))) = false.
Proof.
  split; [|split].
  - apply (flush_trigger scripted_insert_batch 1.5%float (three_queued [])).
    right. split; vm_compute; reflexivity.
  - intros n batch Hin.
    destruct (proj2 (flush_trigger scripted_insert_batch 1.5%float (three_queued []))
                n batch Hin) as (_ & _ & Hlen & _).
    rewrite Hlen. vm_compute. reflexivity.
  - destruct (existsb _ _) eqn:Hflush; [|reflexivity].
    apply (flush_trigger scripted_insert_batch 0.5%float (three_queued [])) in Hflush.
    destruct Hflush as [Hsize|[_ Htime]].
    + vm_compute in Hsize. exfalso. apply Hsize. reflexivity.
    + vm_compute in Htime. discriminate.
Defined.

Lemma failed_write_accounting_witness :
  last_batch_time
    (worker (fst (_process_batch scripted_insert_batch 1.5%float
                    (three_queued [ExecuteRaises (DatabaseError "database is locked")]))))
  = 1.5%float /\
  total_processed
    (buffer (fst (_process_batch scripted_insert_batch 1.5%float
                    (three_queued [ExecuteRaises (DatabaseError "database is locked")]))))
  = 0 /\
  queue_size
    (buffer (fst (_process_batch scripted_insert_batch 1.5%float
                    (three_queued [ExecuteRaises (DatabaseError "database is locked")]))))
  = 0.
Proof.
  pose proof (failed_write_accounting scripted_insert_batch 1.5%float
                (three_queued [ExecuteRaises (DatabaseError "database is locked")])
                (mkScripted (edb (open_database [])) []) 0
                ltac:(vm_compute; reflexivity) ltac:(vm_compute; reflexivity))
    as (Htime & _ & Hfail & _).
  destruct (Hfail ltac:(lia)) as (Hbuf & Hproc & _).
  split; [exact Htime|]. split; [rewrite Hproc; reflexivity|].
  rewrite Hbuf. vm_compute. reflexivity.
Defined.

Lemma worker_survives_exceptions_witness :
  worker_iteration flaky_insert_batch 2%float flaky_world
  = emit [EPrintWorkerError (DatabaseError "injected failure"); ESleep BACKOFF_SLEEP]
         (fst (_process_batch flaky_insert_batch 2%float flaky_world)) /\
  iterations flaky_insert_batch [first_tick; second_tick] flaky_world = 2%nat /\
  running (worker (start_loop flaky_insert_batch [first_tick; second_tick] flaky_world))
  = true /\
  total_processed
    (buffer (start_loop flaky_insert_batch [first_tick; second_tick] flaky_world)) = 2.
Proof.
  pose proof (worker_survives_exceptions flaky_insert_batch first_tick [second_tick]
                flaky_world ltac:(reflexivity)) as (Hcaught & _ & _ & Hloop).
  destruct Hloop as [Hcount Hrun];
    [repeat constructor|].
  split; [|split; [exact Hcount|split; [exact Hrun|vm_compute; reflexivity]]].
  apply (Hcaught (fst (_process_batch flaky_insert_batch 2%float flaky_world))).
  vm_compute. reflexivity.
Defined.

(** The drain-on-shutdown scenario.  With 37 events admitted and no poll
    before shutdown, the shutdown makes one [get_batch(MAX_QUEUE_SIZE)] call
    and one [insert_batch] call that receives all 37 events and returns 37,
    then closes the database; the queue is empty afterwards and
    [total_processed] is still 0. *)
Lemma shutdown_drain_scenario :
  snd (shutdown scripted_insert_batch scripted_close before_shutdown) = Ok tt /\
  trace (fst (shutdown scripted_insert_batch scripted_close before_shutdown))
  = [EGetBatch MAX_QUEUE_SIZE (sample_events 37);
     EPrintRemaining 37;
     EInsertBatch (sample_events 37) (Ok 37);
     EClose] /\
  queue_size (buffer (fst (shutdown scripted_insert_batch scripted_close before_shutdown)))
  = 0 /\
  total_received (buffer (fst (shutdown scripted_insert_batch scripted_close before_shutdown)))
  = 37 /\
  total_processed (buffer (fst (shutdown scripted_insert_batch scripted_close before_shutdown)))
  = 0.
Proof. repeat split; vm_compute; reflexivity. Qed.

(** ** The shutdown drain *)

Lemma take_whole {A : Type} (l : list A) (n : Z) :
  len l <= n -> take (Z.to_nat (Z.min n (len l))) l = l.
Proof. intros H. apply take_ge. unfold len in *. lia. Qed.

Lemma drop_whole {A : Type} (l : list A) (n : Z) :
  len l <= n -> drop (Z.to_nat (Z.min n (len l))) l = [].
Proof. intros H. apply drop_ge. unfold len in *. lia. Qed.

Section ShutdownProperties.

Context {D : Type}.
Variable db_insert_batch : D -> list Event -> D * Result Z.
Variable db_close : D -> D.

(** The worlds [shutdown] can end in, by the remainder and the write. *)
Lemma shutdown_cases (w : World D) :
  let remaining := snd (get_batch MAX_QUEUE_SIZE (buffer w)) in
  let b1 := fst (get_batch MAX_QUEUE_SIZE (buffer w)) in
  let stopped := mkWorker false (last_batch_time (worker w)) in
  let wrote := db_insert_batch (database w) remaining in
  shutdown db_insert_batch db_close w
  = match remaining with
    | [] =>
        (mkWorld b1 stopped (db_close (database w))
           (trace w ++ [EGetBatch MAX_QUEUE_SIZE remaining; EClose]), Ok tt)
    | _ :: _ =>
        match snd wrote with
        | Ok _ =>
            (mkWorld b1 stopped (db_close (fst wrote))
               (trace w ++ [EGetBatch MAX_QUEUE_SIZE remaining;
                            EPrintRemaining (len remaining);
                            EInsertBatch remaining (snd wrote);
                            EClose]), Ok tt)
        | Raise e =>
            (mkWorld b1 stopped (fst wrote)
               (trace w ++ [EGetBatch MAX_QUEUE_SIZE remaining;
                            EPrintRemaining (len remaining);
                            EInsertBatch remaining (snd wrote)]), Raise e)
        end
    end.
Proof.
  intros remaining b1 stopped wrote. subst remaining b1 stopped wrote.
  unfold shutdown, stop, set_worker. cbn [buffer worker database trace].
  destruct (get_batch MAX_QUEUE_SIZE (buffer w)) as [b1 remaining]. cbn [fst snd].
  unfold emit, set_buffer, set_database. cbn [buffer worker database trace].
  destruct remaining as [|x remaining].
  - cbn [buffer worker database trace]. rewrite <- !app_assoc. reflexivity.
  - destruct (db_insert_batch (database w) (x :: remaining)) as [d1 [n|e]];
      cbn [fst snd buffer worker database trace]; rewrite <- !app_assoc; reflexivity.
Qed.

(** C3, amended.  The shutdown stops the worker and makes exactly one
    [get_batch] call, with [max_count = MAX_QUEUE_SIZE]; when that call
    returns events it makes exactly one [insert_batch] call, on all of them,
    and when it returns none it makes no [insert_batch] call.  A queue of at
    most [MAX_QUEUE_SIZE] events is returned whole and is empty afterwards;
    so the events admitted into a fresh default buffer and never flushed all
    reach that one write, in the order of admission. *)
Theorem shutdown_single_drain (w : World D) :
  let remaining := snd (get_batch MAX_QUEUE_SIZE (buffer w)) in
  let w' := fst (shutdown db_insert_batch db_close w) in
  running (worker w') = false /\
  List.filter is_get_batch (new_effects w w') = [EGetBatch MAX_QUEUE_SIZE remaining] /\
  List.filter is_insert (new_effects w w')
  = match remaining with
    | [] => []
    | _ :: _ => [EInsertBatch remaining (snd (db_insert_batch (database w) remaining))]
    end /\
  (queue_size (buffer w) <= MAX_QUEUE_SIZE ->
   remaining = items (queue (buffer w)) /\ queue_size (buffer w') = 0) /\
  (forall es,
      len es <= MAX_QUEUE_SIZE ->
      buffer w = fst (add_events es default_buffer) ->
      remaining = es).
Proof.
  intros remaining w'. subst remaining w'. unfold new_effects.
  assert (Hwhole : queue_size (buffer w) <= MAX_QUEUE_SIZE ->
                   snd (get_batch MAX_QUEUE_SIZE (buffer w)) = items (queue (buffer w))).
  { intros Hq. rewrite get_batch_spec. apply take_whole, Hq. }
  assert (Hbuf : buffer (fst (shutdown db_insert_batch db_close w))
                 = fst (get_batch MAX_QUEUE_SIZE (buffer w))).
  { rewrite shutdown_cases. destruct (snd (get_batch _ _)); [reflexivity|].
    destruct (snd (db_insert_batch _ _)); reflexivity. }
  split; [|split; [|split; [|split]]].
  - rewrite shutdown_cases. destruct (snd (get_batch _ _)); [reflexivity|].
    destruct (snd (db_insert_batch _ _)); reflexivity.
  - rewrite shutdown_cases. destruct (snd (get_batch _ _)) as [|x l].
    + cbn [fst trace]. rewrite drop_app_length. reflexivity.
    + destruct (snd (db_insert_batch _ _)); cbn [fst trace];
        rewrite drop_app_length; reflexivity.
  - rewrite shutdown_cases. destruct (snd (get_batch _ _)) as [|x l].
    + cbn [fst trace]. rewrite drop_app_length. reflexivity.
    + destruct (snd (db_insert_batch _ _)); cbn [fst trace];
        rewrite drop_app_length; reflexivity.
  - intros Hq. split; [exact (Hwhole Hq)|].
    rewrite Hbuf, get_batch_spec. unfold queue_size. cbn [queue items].
    rewrite drop_whole by exact Hq. reflexivity.
  - intros es Hlen Hb.
    assert (Hitems : items (queue (buffer w)) = es).
    { rewrite Hb. change es with ([] ++ es) at 2.
      apply (add_events_appends es default_buffer);
        unfold queue_size, default_buffer; cbn; unfold len in *; cbn; lia. }
    rewrite Hwhole; [exact Hitems|]. unfold queue_size. rewrite Hitems. exact Hlen.
Qed.

End ShutdownProperties.

Lemma shutdown_single_drain_witness :
  snd (get_batch MAX_QUEUE_SIZE (buffer before_shutdown)) = sample_events 37 /\
  queue_size (buffer (fst (shutdown scripted_insert_batch scripted_close before_shutdown)))
  = 0.
Proof.
  pose proof (shutdown_single_drain scripted_insert_batch scripted_close before_shutdown)
    as (_ & _ & _ & Hwhole & Hadmitted).
  split.
  - apply (Hadmitted (sample_events 37)); [vm_compute; discriminate|reflexivity].
  - apply Hwhole. vm_compute. discriminate.
Defined.

(** C3, as stated, fails: when nothing is queued at shutdown no
    [insert_batch] call is made at all. *)
Lemma shutdown_of_empty_queue_writes_nothing :
  List.filter is_insert
    (trace (fst (shutdown scripted_insert_batch scripted_close idle_before_shutdown))) = [] /\
  length (List.filter is_insert
            (trace (fst (shutdown scripted_insert_batch scripted_close idle_before_shutdown))))
  <> 1%nat.
Proof. split; vm_compute; [reflexivity|discriminate]. Qed.

(** * Further properties of the collector *)

(** ** get_batch *)

Lemma buffer_eta (b : EventBuffer) :
  mkBuffer (mkDeque (items (queue b)) (maxlen (queue b)))
           (total_received b) (total_processed b) (total_dropped b) = b.
Proof. destruct b as [[q m] r p d]. reflexivity. Qed.

(** X1. [get_batch] with a batch size of zero or less returns the empty list
    and leaves the buffer as it is. *)
Theorem get_batch_nonpositive (n : Z) (b : EventBuffer) :
  n <= 0 -> get_batch n b = (b, []).
Proof.
  intros Hn. rewrite get_batch_spec.
  pose proof (len_nonneg (items (queue b))) as Hl. unfold queue_size.
  replace (Z.to_nat (Z.min n (len (items (queue b))))) with O by lia.
  rewrite drop_0, take_0, buffer_eta. reflexivity.
Qed.

Lemma get_batch_nonpositive_witness :
  get_batch (-5) (fst (add_events (sample_events 3) default_buffer))
  = (fst (add_events (sample_events 3) default_buffer), []).
Proof. apply get_batch_nonpositive. lia. Defined.

(** X2. Two [get_batch] calls in a row, for [n] and then [m] events, hand out
    the same events in the same order as one call for [n + m], and leave the
    same buffer. *)
Theorem get_batch_twice (n m : Z) (b : EventBuffer) :
  0 <= n -> 0 <= m ->
  get_batch (n + m) b
  = (fst (get_batch m (fst (get_batch n b))),
     snd (get_batch n b) ++ snd (get_batch m (fst (get_batch n b)))).
Proof.
  intros Hn Hm. rewrite (get_batch_spec n b). cbn [fst snd].
  rewrite !get_batch_spec. unfold queue_size. cbn [queue items maxlen
    total_received total_processed total_dropped fst snd].
  set (l := items (queue b)).
  assert (Hk : Z.to_nat (Z.min (n + m) (len l))
               = (Z.to_nat (Z.min n (len l))
                  + Z.to_nat (Z.min m (len (drop (Z.to_nat (Z.min n (len l))) l))))%nat).
  { unfold len. rewrite length_drop. lia. }
  rewrite Hk, drop_drop, take_take_drop. reflexivity.
Qed.

Lemma get_batch_twice_witness :
  snd (get_batch (2 + 2) (fst (add_events (sample_events 5) default_buffer)))
  = snd (get_batch 2 (fst (add_events (sample_events 5) default_buffer)))
    ++ snd (get_batch 2 (fst (get_batch 2 (fst (add_events (sample_events 5)
                                                  default_buffer))))).
Proof.
  rewrite (get_batch_twice 2 2 (fst (add_events (sample_events 5) default_buffer)))
    by lia.
  reflexivity.
Defined.

(** X3. A [get_batch] call asking for at least as many events as are queued
    returns the whole queue and empties it, so that any further call returns
    the empty list. *)
Theorem get_batch_drains (n m : Z) (b : EventBuffer) :
  queue_size b <= n ->
  snd (get_batch n b) = items (queue b) /\
  items (queue (fst (get_batch n b))) = [] /\
  snd (get_batch m (fst (get_batch n b))) = [].
Proof.
  intros Hq. rewrite (get_batch_spec n b). cbn [fst snd].
  unfold queue_size in *. rewrite take_whole, drop_whole by exact Hq.
  split; [reflexivity|]. split; [reflexivity|].
  rewrite get_batch_spec. cbn. apply take_nil.
Qed.

Lemma get_batch_drains_witness :
  snd (get_batch 10 (fst (add_events (sample_events 3) default_buffer)))
  = sample_events 3 /\
  snd (get_batch 10 (fst (get_batch 10 (fst (add_events (sample_events 3)
                                               default_buffer))))) = [].
Proof.
  destruct (get_batch_drains 10 10 (fst (add_events (sample_events 3) default_buffer)))
    as (Hall & _ & Hnone); [vm_compute; discriminate|].
  split; [rewrite Hall; reflexivity|exact Hnone].
Defined.

(** ** The counters *)

Lemma sys_step_monotone (s s' : Sys) :
  sys_step s s' ->
  total_received (sys_buffer s) <= total_received (sys_buffer s') /\
  total_processed (sys_buffer s) <= total_processed (sys_buffer s') /\
  total_dropped (sys_buffer s) <= total_dropped (sys_buffer s').
Proof.
  intros [e s0|n s0|k s0 Hk]; cbn [sys_buffer].
  - unfold add_event. destruct (_ >=? _); cbn; lia.
  - rewrite get_batch_spec. cbn. lia.
  - unfold add_processed. cbn. lia.
Qed.

(** X4. The three counters never decrease: along any sequence of [add_event],
    [get_batch] and processed-count updates each of [total_received],
    [total_processed] and [total_dropped] is at least what it was. *)
Theorem counters_monotone (s s' : Sys) :
  rtc sys_step s s' ->
  total_received (sys_buffer s) <= total_received (sys_buffer s') /\
  total_processed (sys_buffer s) <= total_processed (sys_buffer s') /\
  total_dropped (sys_buffer s) <= total_dropped (sys_buffer s').
Proof.
  induction 1 as [s|s mid s' Hstep _ IH].
  - lia.
  - pose proof (sys_step_monotone s mid Hstep). lia.
Qed.

Lemma counters_monotone_witness :
  total_received (sys_buffer (sys_start default_buffer))
  <= total_received (sys_buffer one_in_flight).
Proof.
  apply (counters_monotone (sys_start default_buffer) one_in_flight).
  eapply rtc_l; [apply (step_add_event (sample_event 1))|].
  eapply rtc_l; [apply (step_get_batch BATCH_SIZE)|].
  apply rtc_refl.
Defined.

Lemma count_true_cons (r : bool) (rs : list bool) :
  count_true (r :: rs) = (if r then 1 else 0) + count_true rs.
Proof.
  unfold count_true. rewrite filter_cons.
  destruct r; case_decide; try congruence; unfold len; cbn [length]; lia.
Qed.

Lemma count_false_cons (r : bool) (rs : list bool) :
  count_false (r :: rs) = (if r then 0 else 1) + count_false rs.
Proof.
  unfold count_false. rewrite filter_cons.
  destruct r; case_decide; try congruence; unfold len; cbn [length]; lia.
Qed.

(** X5. After a sequence of [add_event] calls [total_received] has grown by
    the number of calls that returned [True] and [total_dropped] by the number
    that returned [False]; every call is one or the other, and
    [total_processed] has not moved. *)
Theorem add_events_counters (es : list Event) :
  forall b : EventBuffer,
    total_received (fst (add_events es b))
    = total_received b + count_true (snd (add_events es b)) /\
    total_dropped (fst (add_events es b))
    = total_dropped b + count_false (snd (add_events es b)) /\
    count_true (snd (add_events es b)) + count_false (snd (add_events es b)) = len es /\
    total_processed (fst (add_events es b)) = total_processed b.
Proof.
  induction es as [|e rest IH]; intros b.
  - cbn. unfold count_true, count_false, len. cbn. lia.
  - rewrite add_events_cons. cbn [fst snd].
    destruct (IH (fst (add_event e b))) as (Hr & Hd & Hc & Hp).
    rewrite count_true_cons, count_false_cons, Hr, Hd, Hp.
    change (len (e :: rest)) with (Z.of_nat (S (length rest))).
    unfold len in Hc.
    assert (Hone : total_received (fst (add_event e b))
                   = total_received b + (if snd (add_event e b) then 1 else 0) /\
                   total_dropped (fst (add_event e b))
                   = total_dropped b + (if snd (add_event e b) then 0 else 1) /\
                   total_processed (fst (add_event e b)) = total_processed b).
    { unfold add_event. destruct (_ >=? _); cbn; lia. }
    destruct Hone as (H1 & H2 & H3). destruct (snd (add_event e b)); lia.
Qed.

(** X6. While the queue holds [MAX_QUEUE_SIZE] events or more, every
    [add_event] call is rejected: the queue and the other counters stay as
    they are and [total_dropped] grows by the number of calls. *)
Theorem full_buffer_rejects_all (es : list Event) :
  forall b : EventBuffer,
    MAX_QUEUE_SIZE <= queue_size b ->
    add_events es b
    = (mkBuffer (queue b) (total_received b) (total_processed b)
                (total_dropped b + len es),
       replicate (length es) false).
Proof.
  induction es as [|e rest IH]; intros b Hfull.
  - cbn. change (len (@nil Event)) with 0. rewrite Z.add_0_r.
    destruct b; reflexivity.
  - rewrite add_events_cons, (add_event_full e b Hfull). cbn [fst snd].
    rewrite IH by exact Hfull. cbn [fst snd queue total_received total_processed
      total_dropped replicate length].
    replace (total_dropped b + 1 + len rest) with (total_dropped b + len (e :: rest))
      by (unfold len; cbn [length]; lia).
    reflexivity.
Qed.

(** ** Buffers built with a bound below MAX_QUEUE_SIZE *)

Lemma reachable_step (C : Z) (s s' : Sys) :
  reachable C s -> sys_step s s' -> reachable C s'.
Proof.
  intros (b0 & Hinit & Hrun) Hstep. exists b0. split; [exact Hinit|].
  eapply rtc_r; eassumption.
Qed.

Lemma reachable_accepts (C : Z) (s : Sys) (e : Event) :
  C < MAX_QUEUE_SIZE -> reachable C s -> snd (add_event e (sys_buffer s)) = true.
Proof.
  intros HC Hr. destruct (reachable_inv C s Hr) as (Hm & [_ Hl] & _).
  rewrite add_event_room; [reflexivity|]. unfold queue_size. lia.
Qed.

(** X7. A buffer built with a bound below [MAX_QUEUE_SIZE] never rejects an
    event: in every reachable state [total_dropped] is 0 and the next
    [add_event] call returns [True]. *)
Theorem small_bound_never_rejects (C : Z) (s : Sys) :
  C < MAX_QUEUE_SIZE ->
  reachable C s ->
  total_dropped (sys_buffer s) = 0 /\
  (forall e, snd (add_event e (sys_buffer s)) = true).
Proof.
  intros HC Hr. split; [|intros e; exact (reachable_accepts C s e HC Hr)].
  destruct Hr as (b0 & Hinit & Hrun).
  revert s Hrun. apply rtc_ind_r.
  - unfold EventBuffer_init in Hinit. destruct (deque_new C); [|discriminate].
    injection Hinit as <-. reflexivity.
  - intros y z Hy Hstep IH.
    assert (Hry : reachable C y) by (exists b0; split; assumption).
    destruct Hstep as [e s0|n s0|k s0 Hk]; cbn [sys_buffer].
    + pose proof (reachable_accepts C s0 e HC Hry) as Hacc.
      unfold add_event in *. destruct (_ >=? _); cbn in *; [discriminate|exact IH].
    + rewrite get_batch_spec. exact IH.
    + exact IH.
Qed.

Lemma small_bound_never_rejects_witness :
  total_dropped (sys_buffer small_full) = 0 /\
  snd (add_event (sample_event 4) (sys_buffer small_full)) = true.
Proof.
  assert (Hr : reachable 2 small_full).
  { exists small_buffer. split; [reflexivity|].
    eapply rtc_l; [apply (step_add_event (sample_event 1))|].
    eapply rtc_l; [apply (step_add_event (sample_event 2))|].
    eapply rtc_l; [apply (step_add_event (sample_event 3))|].
    apply rtc_refl. }
  destruct (small_bound_never_rejects 2 small_full ltac:(reflexivity) Hr) as [Hd Hacc].
  split; [exact Hd|apply Hacc].
Defined.

(** X8. When the queue of a buffer is full at a bound below
    [MAX_QUEUE_SIZE], [add_event] returns [True], discards the oldest queued
    event and appends the new one; the queue keeps its length. *)
Theorem full_deque_discards_oldest (e : Event) (b : EventBuffer) :
  0 < maxlen (queue b) ->
  maxlen (queue b) < MAX_QUEUE_SIZE ->
  queue_size b = maxlen (queue b) ->
  add_event e b
  = (mkBuffer (mkDeque (tail (items (queue b)) ++ [e]) (maxlen (queue b)))
              (total_received b + 1) (total_processed b) (total_dropped b),
     true) /\
  queue_size (fst (add_event e b)) = queue_size b.
Proof.
  intros Hpos Hsmall Hfull.
  assert (Hadd : add_event e b
                 = (mkBuffer (mkDeque (tail (items (queue b)) ++ [e]) (maxlen (queue b)))
                      (total_received b + 1) (total_processed b) (total_dropped b),
                    true)).
  { rewrite add_event_room by lia. unfold deque_append, queue_size in *.
    destruct (Z.gtb_spec (len (items (queue b) ++ [e])) (maxlen (queue b))) as [_|Hle].
    - destruct (items (queue b)) as [|x l]; [|reflexivity].
      change (len (@nil Event)) with 0 in Hfull. lia.
    - rewrite len_app in Hle. change (len [e]) with 1 in Hle. lia. }
  split; [exact Hadd|]. rewrite Hadd. unfold queue_size in *. cbn [fst queue items].
  destruct (items (queue b)) as [|x l];
    [change (len (@nil Event)) with 0 in Hfull; lia|].
  cbn [tail]. rewrite len_app. change (len [e]) with 1. unfold len. cbn [length]. lia.
Qed.

Lemma full_deque_discards_oldest_witness :
  items (queue (fst (add_event (sample_event 4) (sys_buffer small_full))))
  = [sample_event 3; sample_event 4].
Proof.
  destruct (full_deque_discards_oldest (sample_event 4) (sys_buffer small_full))
    as [Hadd _]; [reflexivity|reflexivity|reflexivity|].
  rewrite Hadd. reflexivity.
Defined.

Lemma full_buffer_rejects_all_witness :
  snd (add_events (sample_events 2) full_buffer) = [false; false] /\
  total_dropped (fst (add_events (sample_events 2) full_buffer)) = 2.
Proof.
  rewrite (full_buffer_rejects_all (sample_events 2) full_buffer).
  - split; reflexivity.
  - unfold queue_size, full_buffer, len. cbn [queue items].
    rewrite length_replicate. lia.
Defined.

(** ** Preparing and writing rows *)

(** X9. [insert_batch] can prepare the row of an event exactly when the event
    has the keys [user_id], [timestamp] and [metadata] and its metadata is
    serialisable; the row then carries these three values.  Otherwise the
    first missing key, in that order, raises [KeyError], and unserialisable
    metadata raises [TypeError]. *)
Theorem prepare_row_spec (e : Event) :
  (forall u t j,
      prepare_row e = Ok (u, t, j)
      <-> e !! "user_id" = Some u /\ e !! "timestamp" = Some t /\
          exists m, e !! "metadata" = Some m /\ m <> PObject /\ j = JsonOf m) /\
  (e !! "user_id" = None -> prepare_row e = Raise (KeyError "user_id")) /\
  (is_Some (e !! "user_id") -> e !! "timestamp" = None ->
   prepare_row e = Raise (KeyError "timestamp")) /\
  (is_Some (e !! "user_id") -> is_Some (e !! "timestamp") -> e !! "metadata" = None ->
   prepare_row e = Raise (KeyError "metadata")) /\
  (is_Some (e !! "user_id") -> is_Some (e !! "timestamp") ->
   e !! "metadata" = Some PObject -> prepare_row e = Raise TypeError).
Proof.
  unfold prepare_row, getitem.
  split; [|split; [|split; [|split]]].
  - intros u t j.
    destruct (e !! "user_id") as [u'|]; cbn;
      [|split; [discriminate|intros (H & _); discriminate]].
    destruct (e !! "timestamp") as [t'|]; cbn;
      [|split; [discriminate|intros (_ & H & _); discriminate]].
    destruct (e !! "metadata") as [m|]; cbn;
      [|split; [discriminate|intros (_ & _ & m & H & _); discriminate]].
    destruct m; cbn; split;
      try (intros H; injection H as <- <- <-; repeat split; eexists;
           repeat split; discriminate);
      try discriminate;
      intros (Hu & Ht & m & Hm & Hne & ->);
      injection Hu as <-; injection Ht as <-; injection Hm as <-;
      try reflexivity; congruence.
  - intros ->. reflexivity.
  - intros [u ->] ->. reflexivity.
  - intros [u ->] [t ->] ->. reflexivity.
  - intros [u ->] [t ->] ->. reflexivity.
Qed.

Lemma prepare_row_spec_witness :
  prepare_row malformed_event = Raise (KeyError "metadata") /\
  prepare_row unserialisable_event = Raise TypeError /\
  prepare_row (sample_event 1)
  = Ok (PInt 1, PStr "2024-01-14T10:30:00Z", JsonOf (PData "{}")).
Proof.
  split; [|split].
  - apply (prepare_row_spec malformed_event); [eexists|eexists|]; reflexivity.
  - apply (prepare_row_spec unserialisable_event); [eexists|eexists|]; reflexivity.
  - apply (prepare_row_spec (sample_event 1)).
    split; [reflexivity|]. split; [reflexivity|].
    exists (PData "{}"). split; [reflexivity|]. split; [discriminate|reflexivity].
Defined.

Lemma prepare_row_payload (p : EventPayload) :
  prepare_row (payload_dict p) = Ok (payload_row p).
Proof. reflexivity. Qed.

Lemma prepare_rows_payloads (ps : list EventPayload) :
  prepare_rows (map payload_dict ps) = Ok (map payload_row ps).
Proof.
  induction ps as [|p rest IH]; [reflexivity|].
  cbn [map prepare_rows]. rewrite prepare_row_payload, IH. reflexivity.
Qed.

(** X10. Events made by [EventPayload.dict()] always have a row: with an open
    connection and an engine that commits, [insert_batch] on a non-empty list
    of them returns its length and commits one row per event, in order, after
    the rows already written. *)
Theorem insert_batch_of_payloads (d : EventDatabase) (c : Connection)
    (ps : list EventPayload) :
  ps <> [] ->
  db d = Some c ->
  insert_batch d (map payload_dict ps) Committed
  = (mkDatabase (db_file d)
       (Some (mkConnection (committed c ++ uncommitted c ++ map payload_row ps) [])),
     Ok (len ps)).
Proof.
  intros Hne Hd. unfold insert_batch.
  destruct ps as [|p rest]; [congruence|]. cbn [map].
  change (payload_dict p :: map payload_dict rest) with (map payload_dict (p :: rest)).
  rewrite (insert_batch_try_ok d (map payload_dict (p :: rest)) Committed
             (map payload_row (p :: rest)) c (prepare_rows_payloads (p :: rest)) Hd eq_refl).
  unfold len. rewrite length_map. reflexivity.
Qed.

Lemma insert_batch_of_payloads_witness :
  snd (insert_batch (edb (open_database []))
         (map payload_dict [mkPayload 12345 "2024-01-14T10:30:00Z" "{'page': '/home'}"])
         Committed) = Ok 1.
Proof.
  rewrite (insert_batch_of_payloads (edb (open_database [])) (mkConnection [] [])
             [mkPayload 12345 "2024-01-14T10:30:00Z" "{'page': '/home'}"]);
    [reflexivity|discriminate|reflexivity].
Defined.

(** X11. Whenever [insert_batch] returns 0 the committed rows are what they
    were: a write that fails at any point commits nothing. *)
Theorem failed_insert_commits_nothing (d : EventDatabase) (events : list Event)
    (o : EngineOutcome) :
  snd (insert_batch d events o) = Ok 0 ->
  committed_rows (fst (insert_batch d events o)) = committed_rows d.
Proof.
  unfold insert_batch. destruct events as [|ev rest]; [reflexivity|].
  unfold insert_batch_try, committed_rows.
  destruct (prepare_rows (ev :: rest)) as [rows|e]; [|reflexivity].
  destruct (db d) as [c|] eqn:Hd; [|cbn; rewrite Hd; reflexivity].
  destruct o as [|e|e]; cbn.
  - intros H. injection H as H. unfold len in H. cbn [length] in H. lia.
  - rewrite Hd. reflexivity.
  - reflexivity.
Qed.

Lemma failed_insert_commits_nothing_witness :
  committed_rows
    (fst (insert_batch (edb (open_database [])) (sample_events 2)
            (CommitRaises (DatabaseError "disk I/O error")))) = [].
Proof.
  rewrite (failed_insert_commits_nothing (edb (open_database [])) (sample_events 2)
             (CommitRaises (DatabaseError "disk I/O error"))); reflexivity.
Defined.

(** ** One poll of the worker *)

Lemma extracted_app (l1 l2 : list Effect) :
  extracted (l1 ++ l2) = extracted l1 ++ extracted l2.
Proof.
  induction l1 as [|x l1 IH]; [reflexivity|].
  destruct x; cbn [app extracted]; rewrite IH; try reflexivity.
  apply app_assoc.
Qed.

Lemma add_events_maxlen (es : list Event) :
  forall b : EventBuffer, maxlen (queue (fst (add_events es b))) = maxlen (queue b).
Proof.
  induction es as [|e rest IH]; intros b; [reflexivity|].
  rewrite add_events_cons. cbn [fst]. rewrite IH. apply add_event_maxlen.
Qed.

Section FurtherWorkerProperties.

Context {D : Type}.
Variable db_insert_batch : D -> list Event -> D * Result Z.
Variable db_close : D -> D.

Local Abbreviation process := (_process_batch db_insert_batch).
Local Abbreviation iteration := (worker_iteration db_insert_batch).
Local Abbreviation loop := (start_loop db_insert_batch).

(** The three ways a poll can end. *)
Lemma process_batch_cases (now : float) (w : World D) :
  process now w = (w, Ok tt) \/
  (should_process (queue_size (buffer w))
     (PrimFloat.sub now (last_batch_time (worker w))) = true /\
   exists d1 inserted,
     db_insert_batch (database w) (snd (get_batch BATCH_SIZE (buffer w)))
     = (d1, Ok inserted)) \/
  (should_process (queue_size (buffer w))
     (PrimFloat.sub now (last_batch_time (worker w))) = true /\
   exists d1 e,
     db_insert_batch (database w) (snd (get_batch BATCH_SIZE (buffer w)))
     = (d1, Raise e)).
Proof.
  destruct (should_process _ _) eqn:Hsp.
  - destruct (db_insert_batch (database w) (snd (get_batch BATCH_SIZE (buffer w))))
      as [d1 [inserted|e]] eqn:Hdb.
    + right. left. split; [reflexivity|]. eauto.
    + right. right. split; [reflexivity|]. eauto.
  - left. apply process_batch_idle. exact Hsp.
Qed.

(** A poll keeps the deque bound and does not lengthen the queue. *)
Lemma process_batch_bounds (now : float) (w : World D) :
  maxlen (queue (buffer (fst (process now w)))) = maxlen (queue (buffer w)) /\
  queue_size (buffer (fst (process now w))) <= queue_size (buffer w).
Proof.
  pose proof (get_batch_sizes BATCH_SIZE (buffer w)) as Hs.
  pose proof (len_nonneg (snd (get_batch BATCH_SIZE (buffer w)))) as Hl.
  destruct (should_process (queue_size (buffer w))
              (PrimFloat.sub now (last_batch_time (worker w)))) eqn:Hsp.
  - unfold queue_size at 1.
    rewrite (process_batch_queue db_insert_batch now w Hsp).
    split; [rewrite get_batch_spec; reflexivity|]. unfold queue_size in *. lia.
  - rewrite (process_batch_idle db_insert_batch now w Hsp). cbn [fst]. split; lia.
Qed.

(** X12. Whatever the clock and the database do, one poll of the worker
    leaves [total_received], [total_dropped], the deque bound and [running]
    as they are, never lengthens the queue and never lowers
    [total_processed] as long as the write does not report a negative count. *)
Theorem process_batch_frame (now : float) (w : World D) :
  total_received (buffer (fst (process now w))) = total_received (buffer w) /\
  total_dropped (buffer (fst (process now w))) = total_dropped (buffer w) /\
  maxlen (queue (buffer (fst (process now w)))) = maxlen (queue (buffer w)) /\
  queue_size (buffer (fst (process now w))) <= queue_size (buffer w) /\
  running (worker (fst (process now w))) = running (worker w) /\
  ((forall d1 n,
       db_insert_batch (database w) (snd (get_batch BATCH_SIZE (buffer w))) = (d1, Ok n) ->
       0 <= n) ->
   total_processed (buffer w) <= total_processed (buffer (fst (process now w)))).
Proof.
  pose proof (get_batch_sizes BATCH_SIZE (buffer w)) as Hs.
  pose proof (len_nonneg (snd (get_batch BATCH_SIZE (buffer w)))) as Hl.
  destruct (process_batch_cases now w)
    as [Hidle|[(Hsp & d1 & n & Hdb)|(Hsp & d1 & e & Hdb)]].
  - rewrite Hidle. cbn [fst]. repeat split; lia.
  - rewrite (process_batch_written db_insert_batch now w d1 n Hsp Hdb).
    cbn [fst buffer worker running].
    destruct (Z.gtb_spec n 0) as [Hpos|Hle].
    + unfold add_processed, queue_size in *. rewrite get_batch_spec in *.
      cbn in *. repeat split; try lia.
    + unfold queue_size in *. rewrite get_batch_spec in *.
      cbn in *. repeat split; try lia.
  - rewrite (process_batch_raised db_insert_batch now w d1 e Hsp Hdb).
    cbn [fst buffer worker]. unfold queue_size in *. rewrite get_batch_spec in *.
    cbn in *. repeat split; try lia.
Qed.

(** X13. A flush whose write reports the whole batch as inserted moves the
    events from the queue to [total_processed]: the sum of [total_processed]
    and the queue size is what it was. *)
Theorem flush_conserves (now : float) (w : World D) (d1 : D) :
  should_process (queue_size (buffer w))
                 (PrimFloat.sub now (last_batch_time (worker w))) = true ->
  db_insert_batch (database w) (snd (get_batch BATCH_SIZE (buffer w)))
  = (d1, Ok (len (snd (get_batch BATCH_SIZE (buffer w))))) ->
  total_processed (buffer (fst (process now w))) + queue_size (buffer (fst (process now w)))
  = total_processed (buffer w) + queue_size (buffer w).
Proof.
  intros Hsp Hdb. rewrite (process_batch_written db_insert_batch now w d1 _ Hsp Hdb).
  cbn [fst buffer].
  pose proof (get_batch_sizes BATCH_SIZE (buffer w)) as Hs.
  pose proof (get_batch_len BATCH_SIZE (buffer w)) as Hl.
  pose proof (should_process_nonempty _ _ Hsp) as Hq.
  destruct (Z.gtb_spec (len (snd (get_batch BATCH_SIZE (buffer w)))) 0) as [Hpos|Hle];
    [|unfold BATCH_SIZE in *; lia].
  unfold add_processed, queue_size in *. rewrite get_batch_spec in *. cbn in *. lia.
Qed.

(** X14. When the write of a flush raises, the exception leaves
    [_process_batch] after the batch was taken: the events of the batch are
    no longer queued, [total_processed] and [last_batch_time] keep their
    values, and the batch is not empty. *)
Theorem raised_write_loses_batch (now : float) (w : World D) (d1 : D) (e : Exn) :
  should_process (queue_size (buffer w))
                 (PrimFloat.sub now (last_batch_time (worker w))) = true ->
  db_insert_batch (database w) (snd (get_batch BATCH_SIZE (buffer w))) = (d1, Raise e) ->
  snd (process now w) = Raise e /\
  snd (get_batch BATCH_SIZE (buffer w)) <> [] /\
  items (queue (buffer w))
  = snd (get_batch BATCH_SIZE (buffer w)) ++ items (queue (buffer (fst (process now w)))) /\
  total_processed (buffer (fst (process now w))) = total_processed (buffer w) /\
  last_batch_time (worker (fst (process now w))) = last_batch_time (worker w).
Proof.
  intros Hsp Hdb. rewrite (process_batch_raised db_insert_batch now w d1 e Hsp Hdb).
  cbn [fst snd buffer worker].
  split; [reflexivity|].
  split; [apply get_batch_nonempty, (should_process_nonempty _ _ Hsp)|].
  rewrite get_batch_spec. cbn. split; [symmetry; apply take_drop|]. split; reflexivity.
Qed.

(** X15. With [BATCH_SIZE] events or more in the queue a poll takes exactly
    the first [BATCH_SIZE] of them, whatever the clock reads and whatever the
    write does. *)
Theorem size_trigger_takes_batch_size (now : float) (w : World D) :
  BATCH_SIZE <= queue_size (buffer w) ->
  extracted (new_effects w (fst (process now w)))
  = take (Z.to_nat BATCH_SIZE) (items (queue (buffer w))) /\
  items (queue (buffer (fst (process now w))))
  = drop (Z.to_nat BATCH_SIZE) (items (queue (buffer w))) /\
  queue_size (buffer (fst (process now w))) = queue_size (buffer w) - BATCH_SIZE.
Proof.
  intros Hq.
  assert (Hsp : should_process (queue_size (buffer w))
                  (PrimFloat.sub now (last_batch_time (worker w))) = true)
    by (apply should_process_spec; left; exact Hq).
  assert (Hk : Z.to_nat (Z.min BATCH_SIZE (queue_size (buffer w))) = Z.to_nat BATCH_SIZE)
    by lia.
  split; [|split].
  - unfold new_effects. destruct (process_batch_effects db_insert_batch now w)
      as (tl & Htr & Hnone).
    rewrite Htr, Hsp, drop_app_length. cbn [extracted].
    assert (Htl : extracted tl = []).
    { clear Htr. induction tl as [|x tl IH]; [reflexivity|].
      cbn [existsb] in Hnone. apply orb_false_iff in Hnone as [Hx Htl'].
      destruct x; cbn in Hx; try discriminate; cbn [extracted]; exact (IH Htl'). }
    rewrite Htl, app_nil_r, get_batch_spec. cbn [snd]. rewrite Hk. reflexivity.
  - rewrite (process_batch_queue db_insert_batch now w Hsp), get_batch_spec.
    cbn. rewrite Hk. reflexivity.
  - unfold queue_size at 1.
    rewrite (process_batch_queue db_insert_batch now w Hsp), get_batch_spec.
    cbn [fst queue items]. rewrite Hk. unfold queue_size, len in *.
    rewrite length_drop. unfold BATCH_SIZE in *. lia.
Qed.

(** X16. With fewer than [BATCH_SIZE] events queued, but at least one, a poll
    at [BATCH_TIMEOUT] or more after the last batch takes the whole queue and
    leaves it empty; before that time it does nothing. *)
Theorem time_trigger_takes_all (now : float) (w : World D) :
  0 < queue_size (buffer w) < BATCH_SIZE ->
  (PrimFloat.leb BATCH_TIMEOUT (PrimFloat.sub now (last_batch_time (worker w))) = true ->
   items (queue (buffer (fst (process now w)))) = [] /\
   exists tl,
     new_effects w (fst (process now w))
     = EGetBatch BATCH_SIZE (items (queue (buffer w))) :: tl) /\
  (PrimFloat.leb BATCH_TIMEOUT (PrimFloat.sub now (last_batch_time (worker w))) = false ->
   process now w = (w, Ok tt)).
Proof.
  intros Hq. split.
  - intros Htime.
    assert (Hsp : should_process (queue_size (buffer w))
                    (PrimFloat.sub now (last_batch_time (worker w))) = true)
      by (apply should_process_spec; right; split; [lia|exact Htime]).
    split.
    + rewrite (process_batch_queue db_insert_batch now w Hsp), get_batch_spec.
      cbn. unfold queue_size in *. apply drop_whole. lia.
    + unfold new_effects. destruct (process_batch_effects db_insert_batch now w)
        as (tl & Htr & _).
      rewrite Htr, Hsp, drop_app_length. exists tl.
      rewrite get_batch_spec. cbn [snd]. unfold queue_size in *.
      rewrite take_whole by lia. reflexivity.
  - intros Htime. apply process_batch_idle. unfold should_process. rewrite Htime.
    destruct (Z.geb_spec (queue_size (buffer w)) BATCH_SIZE); [lia|].
    rewrite andb_false_r. reflexivity.
Qed.

(** ** The loop *)

Lemma loop_stopped (ticks : list Tick) (w : World D) :
  running (worker w) = false ->
  loop ticks w = w /\ iterations db_insert_batch ticks w = O.
Proof. intros H. destruct ticks; cbn; rewrite ?H; split; reflexivity. Qed.

(** X17. A [stop] call during a sleep ends the loop at its next test: the
    iteration under way is the last one, later ticks are not polled, and
    [running] is cleared. *)
Theorem stop_ends_loop (t : Tick) (rest : list Tick) (w : World D) :
  running (worker w) = true ->
  tick_stop t = true ->
  loop (t :: rest) w = during_sleep t (iteration (tick_now t) w) /\
  running (worker (loop (t :: rest) w)) = false /\
  iterations db_insert_batch (t :: rest) w = 1%nat.
Proof.
  intros Hrun Hstop. cbn [start_loop iterations]. rewrite Hrun.
  assert (Hoff : running (worker (during_sleep t (iteration (tick_now t) w))) = false).
  { unfold during_sleep. rewrite Hstop. reflexivity. }
  destruct (loop_stopped rest _ Hoff) as [Hloop Hiter].
  rewrite Hloop, Hiter. split; [reflexivity|]. split; [exact Hoff|reflexivity].
Qed.

Lemma extracted_none (tl : list Effect) :
  existsb is_get_batch tl = false -> extracted tl = [].
Proof.
  induction tl as [|x tl IH]; [reflexivity|].
  cbn [existsb]. intros Hnone. apply orb_false_iff in Hnone as [Hx Htl].
  destruct x; cbn in Hx; try discriminate; cbn [extracted]; exact (IH Htl).
Qed.

(** One poll hands out what it removes from the queue, in order. *)
Lemma process_batch_extracted (now : float) (w : World D) :
  extracted (trace (fst (process now w))) ++ items (queue (buffer (fst (process now w))))
  = extracted (trace w) ++ items (queue (buffer w)).
Proof.
  destruct (process_batch_effects db_insert_batch now w) as (tl & Htr & Hnone).
  rewrite Htr, extracted_app.
  destruct (should_process _ _) eqn:Hsp.
  - cbn [extracted]. rewrite (extracted_none tl Hnone), app_nil_r.
    rewrite (process_batch_queue db_insert_batch now w Hsp), get_batch_spec.
    cbn [fst snd queue items]. rewrite <- app_assoc, take_drop. reflexivity.
  - rewrite (process_batch_idle db_insert_batch now w Hsp). cbn [fst extracted].
    rewrite app_nil_r. reflexivity.
Qed.

Lemma worker_iteration_buffer (now : float) (w : World D) :
  buffer (iteration now w) = buffer (fst (process now w)).
Proof. unfold worker_iteration. destruct (process now w) as [w1 [u|e]]; reflexivity. Qed.

Lemma worker_iteration_extracted (now : float) (w : World D) :
  extracted (trace (iteration now w)) = extracted (trace (fst (process now w))).
Proof.
  unfold worker_iteration. destruct (process now w) as [w1 [u|e]];
    cbn [fst emit trace]; rewrite extracted_app; cbn [extracted]; apply app_nil_r.
Qed.

(** X18. Extraction loses and reorders nothing.  For a running worker on a
    buffer whose bound is at least [MAX_QUEUE_SIZE], over any number of polls
    without a [stop] and with room for all arrivals: the batches handed out by
    [get_batch] so far, followed by the queue, are the batches and queue at
    the start followed by the events admitted meanwhile, in order of
    admission - whatever the writes do. *)
Theorem loop_conserves_events (ticks : list Tick) :
  forall w : World D,
    running (worker w) = true ->
    no_stop ticks ->
    MAX_QUEUE_SIZE <= maxlen (queue (buffer w)) ->
    queue_size (buffer w) + len (all_arrivals ticks) <= MAX_QUEUE_SIZE ->
    extracted (trace (loop ticks w)) ++ items (queue (buffer (loop ticks w)))
    = extracted (trace w) ++ items (queue (buffer w)) ++ all_arrivals ticks.
Proof.
  induction ticks as [|t rest IH]; intros w Hrun Hns Hmax Hroom.
  - cbn. rewrite app_nil_r. reflexivity.
  - apply Forall_cons in Hns as [Ht Hrest].
    unfold all_arrivals in *. cbn [map concat] in *. rewrite len_app in Hroom.
    pose proof (len_nonneg (concat (map tick_arrivals rest))) as Hl.
    cbn [start_loop]. rewrite Hrun.
    destruct (process_batch_bounds (tick_now t) w) as (Hmaxlen & Hshrink).
    set (w1 := iteration (tick_now t) w) in *.
    assert (Hb1 : buffer w1 = buffer (fst (process (tick_now t) w)))
      by apply worker_iteration_buffer.
    assert (Hw2 : during_sleep t w1
                  = set_buffer (fst (add_events (tick_arrivals t) (buffer w1))) w1)
      by (unfold during_sleep; rewrite Ht; reflexivity).
    assert (Hitems : items (queue (fst (add_events (tick_arrivals t) (buffer w1))))
                     = items (queue (buffer w1)) ++ tick_arrivals t).
    { apply add_events_appends; rewrite Hb1; lia. }
    rewrite Hw2, IH.
    + cbn [set_buffer trace buffer]. rewrite Hitems. subst w1.
      rewrite worker_iteration_extracted, Hb1.
      rewrite !app_assoc. rewrite process_batch_extracted. reflexivity.
    + cbn [set_buffer worker]. subst w1. rewrite worker_iteration_running. exact Hrun.
    + exact Hrest.
    + cbn [set_buffer buffer]. rewrite add_events_maxlen, Hb1. lia.
    + cbn [set_buffer buffer]. unfold queue_size in *. rewrite Hitems, len_app, Hb1. lia.
Qed.

(** X19. When the final write of the shutdown raises, the exception leaves
    lifespan: the database is not closed, and the drained events are in
    neither the queue nor the database. *)
Theorem shutdown_write_raises (w : World D) (d1 : D) (e : Exn) :
  snd (get_batch MAX_QUEUE_SIZE (buffer w)) <> [] ->
  db_insert_batch (database w) (snd (get_batch MAX_QUEUE_SIZE (buffer w)))
  = (d1, Raise e) ->
  snd (shutdown db_insert_batch db_close w) = Raise e /\
  database (fst (shutdown db_insert_batch db_close w)) = d1 /\
  ~ In EClose (new_effects w (fst (shutdown db_insert_batch db_close w))) /\
  buffer (fst (shutdown db_insert_batch db_close w))
  = fst (get_batch MAX_QUEUE_SIZE (buffer w)).
Proof.
  intros Hne Hdb. rewrite shutdown_cases. unfold new_effects.
  destruct (snd (get_batch MAX_QUEUE_SIZE (buffer w))) as [|x l]; [congruence|].
  rewrite Hdb. cbn [fst snd database trace buffer]. rewrite drop_app_length.
  split; [reflexivity|]. split; [reflexivity|]. split; [|reflexivity].
  intros [H|[H|[H|[]]]]; discriminate.
Qed.

End FurtherWorkerProperties.

Lemma process_batch_frame_witness :
  total_processed (buffer (three_queued []))
  <= total_processed
       (buffer (fst (_process_batch scripted_insert_batch 1.5%float (three_queued [])))).
Proof.
  apply (process_batch_frame scripted_insert_batch 1.5%float (three_queued [])).
  intros d1 n H. vm_compute in H. injection H as _ <-. lia.
Defined.

Lemma flush_conserves_witness :
  total_processed
    (buffer (fst (_process_batch scripted_insert_batch 1.5%float (three_queued []))))
  + queue_size
      (buffer (fst (_process_batch scripted_insert_batch 1.5%float (three_queued []))))
  = 3.
Proof.
  rewrite (flush_conserves scripted_insert_batch 1.5%float (three_queued [])
             (fst (scripted_insert_batch (database (three_queued []))
                     (snd (get_batch BATCH_SIZE (buffer (three_queued []))))))).
  - reflexivity.
  - vm_compute. reflexivity.
  - vm_compute. reflexivity.
Defined.

Lemma raised_write_loses_batch_witness :
  snd (_process_batch flaky_insert_batch 2%float flaky_world)
  = Raise (DatabaseError "injected failure") /\
  last_batch_time (worker (fst (_process_batch flaky_insert_batch 2%float flaky_world)))
  = 0%float.
Proof.
  destruct (raised_write_loses_batch flaky_insert_batch 2%float flaky_world
              (mkFlaky false (open_database [])) (DatabaseError "injected failure")
              ltac:(vm_compute; reflexivity) ltac:(vm_compute; reflexivity))
    as (Hraise & _ & _ & _ & Htime).
  split; [exact Hraise|exact Htime].
Defined.

Lemma size_trigger_takes_batch_size_witness :
  queue_size (buffer (fst (_process_batch scripted_insert_batch 0.5%float busy_world)))
  = queue_size (buffer busy_world) - BATCH_SIZE.
Proof.
  apply (size_trigger_takes_batch_size scripted_insert_batch 0.5%float busy_world).
  vm_compute. discriminate.
Defined.

Lemma time_trigger_takes_all_witness :
  items (queue (buffer (fst (_process_batch scripted_insert_batch 1.5%float
                              (three_queued []))))) = [] /\
  _process_batch scripted_insert_batch 0.5%float (three_queued [])
  = (three_queued [], Ok tt).
Proof.
  destruct (time_trigger_takes_all scripted_insert_batch 1.5%float (three_queued []))
    as [Hlate _]; [split; vm_compute; reflexivity|].
  destruct (time_trigger_takes_all scripted_insert_batch 0.5%float (three_queued []))
    as [_ Hearly]; [split; vm_compute; reflexivity|].
  split; [apply Hlate; vm_compute; reflexivity|apply Hearly; vm_compute; reflexivity].
Defined.

Lemma stop_ends_loop_witness :
  iterations scripted_insert_batch [stopping_tick; first_tick; second_tick]
    (three_queued []) = 1%nat /\
  running (worker (start_loop scripted_insert_batch
                     [stopping_tick; first_tick; second_tick] (three_queued [])))
  = false.
Proof.
  destruct (stop_ends_loop scripted_insert_batch stopping_tick [first_tick; second_tick]
              (three_queued []) ltac:(reflexivity) ltac:(reflexivity))
    as (_ & Hoff & Hone).
  split; [exact Hone|exact Hoff].
Defined.

Lemma loop_conserves_events_witness :
  extracted (trace (start_loop scripted_insert_batch [first_tick; second_tick]
                      (three_queued [])))
  ++ items (queue (buffer (start_loop scripted_insert_batch [first_tick; second_tick]
                             (three_queued []))))
  = sample_events 5.
Proof.
  rewrite (loop_conserves_events scripted_insert_batch [first_tick; second_tick]
             (three_queued [])).
  - reflexivity.
  - reflexivity.
  - repeat constructor.
  - vm_compute. discriminate.
  - vm_compute. discriminate.
Defined.

Lemma shutdown_write_raises_witness :
  snd (shutdown flaky_insert_batch flaky_close flaky_world)
  = Raise (DatabaseError "injected failure") /\
  ~ In EClose (new_effects flaky_world
                 (fst (shutdown flaky_insert_batch flaky_close flaky_world))).
Proof.
  destruct (shutdown_write_raises flaky_insert_batch flaky_close flaky_world
              (mkFlaky false (open_database [])) (DatabaseError "injected failure")
              ltac:(vm_compute; discriminate) ltac:(vm_compute; reflexivity))
    as (Hraise & _ & Hopen & _).
  split; [exact Hraise|exact Hopen].
Defined.

(** ** The worker on the module's EventDatabase *)

Lemma insert_batch_returns (d : EventDatabase) (events : list Event) (o : EngineOutcome) :
  exists n, snd (insert_batch d events o) = Ok n.
Proof.
  unfold insert_batch. destruct events as [|ev rest]; [exists 0; reflexivity|].
  destruct (insert_batch_try d (ev :: rest) o) as [d' [n|e]]; eexists; reflexivity.
Qed.

Lemma scripted_insert_batch_returns (s : ScriptedDb) (events : list Event) :
  exists n, snd (scripted_insert_batch s events) = Ok n.
Proof.
  unfold scripted_insert_batch. destruct (script s) as [|o rest].
  - destruct (insert_batch_returns (edb s) events Committed) as [n Hn].
    destruct (insert_batch (edb s) events Committed) as [d r]. exists n. exact Hn.
  - destruct (insert_batch_returns (edb s) events o) as [n Hn].
    destruct (insert_batch (edb s) events o) as [d r]. exists n. exact Hn.
Qed.

(** X20. With the module's [EventDatabase] a poll never raises, whatever the
    storage engine does: [_process_batch] returns normally, so the handler of
    [start] is not entered and the iteration ends with the ordinary
    [WORKER_SLEEP] sleep. *)
Theorem event_database_never_backs_off (now : float) (w : World ScriptedDb) :
  snd (_process_batch scripted_insert_batch now w) = Ok tt /\
  worker_iteration scripted_insert_batch now w
  = emit [ESleep WORKER_SLEEP] (fst (_process_batch scripted_insert_batch now w)).
Proof.
  assert (Hok : snd (_process_batch scripted_insert_batch now w) = Ok tt).
  { destruct (should_process (queue_size (buffer w))
                (PrimFloat.sub now (last_batch_time (worker w)))) eqn:Hsp.
    - destruct (scripted_insert_batch_returns (database w)
                  (snd (get_batch BATCH_SIZE (buffer w)))) as [n Hn].
      destruct (scripted_insert_batch (database w)
                  (snd (get_batch BATCH_SIZE (buffer w)))) as [d1 r] eqn:Hdb.
      cbn [snd] in Hn. subst r.
      rewrite (process_batch_written scripted_insert_batch now w d1 n Hsp Hdb).
      reflexivity.
    - rewrite (process_batch_idle scripted_insert_batch now w Hsp). reflexivity. }
  split; [exact Hok|]. unfold worker_iteration.
  destruct (_process_batch scripted_insert_batch now w) as [w1 r]. cbn [fst snd] in *.
  subst r. reflexivity.
Qed.

(** ** The ingest endpoint *)

(** X21. [POST /event] answers 503 exactly when the queue holds
    [MAX_QUEUE_SIZE] events or more; the request then changes nothing but
    [total_dropped].  Otherwise it answers 202, counts the event in
    [total_received] and, below the deque bound, puts the event's dictionary
    at the tail of the queue.  The worker, the database and the trace are
    never touched. *)
Theorem ingest_event_reply {D : Type} (p : EventPayload) (w : World D) :
  (snd (ingest_event p w) = Unavailable503 "Queue is full - please retry later"
   <-> MAX_QUEUE_SIZE <= queue_size (buffer w)) /\
  (snd (ingest_event p w) = Accepted202 <-> queue_size (buffer w) < MAX_QUEUE_SIZE) /\
  (MAX_QUEUE_SIZE <= queue_size (buffer w) ->
   buffer (fst (ingest_event p w))
   = mkBuffer (queue (buffer w)) (total_received (buffer w))
              (total_processed (buffer w)) (total_dropped (buffer w) + 1)) /\
  (queue_size (buffer w) < MAX_QUEUE_SIZE ->
   total_received (buffer (fst (ingest_event p w))) = total_received (buffer w) + 1 /\
   total_dropped (buffer (fst (ingest_event p w))) = total_dropped (buffer w) /\
   (queue_size (buffer w) < maxlen (queue (buffer w)) ->
    items (queue (buffer (fst (ingest_event p w))))
    = items (queue (buffer w)) ++ [payload_dict p])) /\
  worker (fst (ingest_event p w)) = worker w /\
  database (fst (ingest_event p w)) = database w /\
  trace (fst (ingest_event p w)) = trace w.
Proof.
  unfold ingest_event.
  destruct (Z.le_gt_cases MAX_QUEUE_SIZE (queue_size (buffer w))) as [Hfull|Hroom].
  - rewrite (add_event_full (payload_dict p) (buffer w) Hfull). cbn.
    repeat split; try reflexivity; try discriminate; intros; try lia.
  - rewrite (add_event_room (payload_dict p) (buffer w)) by lia. cbn.
    repeat split; try reflexivity; try discriminate; intros; try lia.
    apply deque_append_room. assumption.
Qed.

Lemma ingest_event_reply_witness :
  snd (ingest_event (mkPayload 12345 "2024-01-14T10:30:00Z" "{}") (three_queued []))
  = Accepted202 /\
  snd (ingest_event (mkPayload 12345 "2024-01-14T10:30:00Z" "{}")
         (mkWorld full_buffer (mkWorker true 0%float) (open_database []) []))
  = Unavailable503 "Queue is full - please retry later".
Proof.
  split.
  - apply (ingest_event_reply (mkPayload 12345 "2024-01-14T10:30:00Z" "{}")
             (three_queued [])).
    vm_compute. reflexivity.
  - apply (ingest_event_reply (mkPayload 12345 "2024-01-14T10:30:00Z" "{}")
             (mkWorld full_buffer (mkWorker true 0%float) (open_database []) [])).
    unfold queue_size, full_buffer, len. cbn [buffer queue items].
    rewrite length_replicate. lia.
Defined.

(** X22. From request to row.  An event posted to an empty queue and polled
    at [BATCH_TIMEOUT] or more after the last batch, with the connection open
    and the engine committing, is written as one row carrying its three
    fields, counted in [total_processed], and gone from the queue. *)
Theorem ingested_event_is_written (p : EventPayload) (now : float)
    (w : World ScriptedDb) (c : Connection) :
  items (queue (buffer w)) = [] ->
  0 < maxlen (queue (buffer w)) ->
  db (edb (database w)) = Some c ->
  script (database w) = [] ->
  PrimFloat.leb BATCH_TIMEOUT (PrimFloat.sub now (last_batch_time (worker w))) = true ->
  let w1 := fst (ingest_event p w) in
  let w2 := fst (_process_batch scripted_insert_batch now w1) in
  snd (ingest_event p w) = Accepted202 /\
  committed_rows (edb (database w2)) = committed c ++ uncommitted c ++ [payload_row p] /\
  total_processed (buffer w2) = total_processed (buffer w) + 1 /\
  items (queue (buffer w2)) = [] /\
  last_batch_time (worker w2) = now.
Proof.
  intros Hempty Hbound Hconn Hscript Htime w1 w2.
  assert (Hq : queue_size (buffer w) = 0) by (unfold queue_size; rewrite Hempty; reflexivity).
  assert (Hing : ingest_event p w
                 = (mkWorld (mkBuffer (mkDeque [payload_dict p] (maxlen (queue (buffer w))))
                               (total_received (buffer w) + 1)
                               (total_processed (buffer w)) (total_dropped (buffer w)))
                            (worker w) (database w) (trace w),
                    Accepted202)).
  { unfold ingest_event. rewrite add_event_room by (rewrite Hq; reflexivity).
    cbn [negb]. unfold deque_append. rewrite Hempty. cbn [app].
    change (len [payload_dict p]) with 1.
    destruct (Z.gtb_spec 1 (maxlen (queue (buffer w)))); [lia|reflexivity]. }
  subst w2 w1. rewrite Hing. cbn [fst snd].
  set (w1 := mkWorld _ _ _ _).
  assert (Hsp : should_process (queue_size (buffer w1))
                  (PrimFloat.sub now (last_batch_time (worker w1))) = true).
  { apply should_process_spec. right. split; [reflexivity|exact Htime]. }
  assert (Hbatch : get_batch BATCH_SIZE (buffer w1)
                   = (mkBuffer (mkDeque [] (maxlen (queue (buffer w))))
                        (total_received (buffer w) + 1)
                        (total_processed (buffer w)) (total_dropped (buffer w)),
                      [payload_dict p])) by reflexivity.
  assert (Hdb : scripted_insert_batch (database w1) (snd (get_batch BATCH_SIZE (buffer w1)))
                = (mkScripted
                     (mkDatabase (db_file (edb (database w)))
                        (Some (mkConnection
                                 (committed c ++ uncommitted c ++ [payload_row p]) [])))
                     [],
                   Ok 1)).
  { rewrite Hbatch. cbn [snd]. subst w1. cbn [database].
    unfold scripted_insert_batch. rewrite Hscript. unfold insert_batch.
    rewrite (insert_batch_try_ok (edb (database w)) [payload_dict p] Committed
               [payload_row p] c eq_refl Hconn eq_refl).
    reflexivity. }
  rewrite (process_batch_written scripted_insert_batch now w1 _ 1 Hsp Hdb).
  rewrite Hbatch. cbn. repeat split; reflexivity.
Qed.

Lemma ingested_event_is_written_witness :
  committed_rows
    (edb (database
            (fst (_process_batch scripted_insert_batch 1.5%float
                    (fst (ingest_event (mkPayload 12345 "2024-01-14T10:30:00Z" "{}")
                            (initial_world 0%float [])))))))
  = [payload_row (mkPayload 12345 "2024-01-14T10:30:00Z" "{}")].
Proof.
  destruct (ingested_event_is_written (mkPayload 12345 "2024-01-14T10:30:00Z" "{}")
              1.5%float (initial_world 0%float []) (mkConnection [] []))
    as (_ & Hrows & _).
  - reflexivity.
  - reflexivity.
  - reflexivity.
  - reflexivity.
  - vm_compute. reflexivity.
  - exact Hrows.
Defined.
